(** * YouTube transcript service: the request pipeline of [main.py]

    A shallow embedding of [extract_video_id], [get_yt_dlp_data],
    [get_transcript] and [get_transcript_get], and the properties of
    the pipeline proved over it.

    Conventions.
    - A Python [str] is a sequence of code points: [str := list N].
      [len] is [List.length]; literals are written [py "..."].
    - The regular expressions of [extract_video_id] are kept as data
      (a list of nodes) and run by a small matcher that follows
      [re.search]: leftmost start position, [^] only at position 0,
      [$] at the end or before a final newline.
    - The document printed by the extraction tool is a JSON value;
      Python's dynamic operations on it ([in], [x[k]], [x[0]], [.get],
      [str.join]) are total functions into a result type whose error
      side is the exception raised.
    - The outside world (subprocesses, the JSON and XML parsers, the
      text of interpreter exceptions, pydantic's coercions) is a set of
      Section variables. *)

From Stdlib Require Import List String Ascii NArith ZArith Bool Lia.
Import ListNotations.

Set Implicit Arguments.
Set Warnings "-register-all".

(** ** Strings *)

Definition char := N.
Definition str := list char.

Definition py (s : string) : str := map N_of_ascii (list_ascii_of_string s).

Definition str_eqb (a b : str) : bool :=
  if list_eq_dec N.eq_dec a b then true else false.

(** [sub in s] on two strings: [sub] occurs in [s]. *)
Fixpoint starts_with (sub s : str) : bool :=
  match sub, s with
  | [], _ => true
  | _ :: _, [] => false
  | a :: sub', b :: s' => N.eqb a b && starts_with sub' s'
  end.

Fixpoint str_contains (sub s : str) : bool :=
  starts_with sub s ||
  match s with
  | [] => false
  | _ :: s' => str_contains sub s'
  end.

(** ** Regular expressions, as far as [extract_video_id] uses them *)

Module Re.

Inductive set_item :=
| Single (c : char)
| Range (lo hi : char).

Inductive node :=
| Literal (c : char)              (* an ordinary character *)
| OneOf (items : list set_item)   (* [...] *)
| Open                            (* ( of group 1 *)
| Close                           (* ) of group 1 *)
| Caret                           (* ^ *)
| Dollar.                         (* $ *)

Arguments Single c%_N.
Arguments Range (lo hi)%_N.
Arguments Literal c%_N.

Definition in_item (c : char) (i : set_item) : bool :=
  match i with
  | Single x => N.eqb c x
  | Range lo hi => N.leb lo c && N.leb c hi
  end.

Definition in_set (items : list set_item) (c : char) : bool :=
  existsb (in_item c) items.

(** The text of group 1 when the nodes match a prefix of [s]. [pos0]
    says that no character was consumed since position 0; [grp] that
    group 1 is open. *)
Fixpoint match_here (ns : list node) (pos0 grp : bool) (s : str) : option str :=
  match ns with
  | [] => Some []
  | Open :: ns' => match_here ns' pos0 true s
  | Close :: ns' => match_here ns' pos0 false s
  | Caret :: ns' => if pos0 then match_here ns' pos0 grp s else None
  | Dollar :: ns' =>
      match s with
      | [] => match_here ns' pos0 grp s
      | [c] => if N.eqb c 10 then match_here ns' pos0 grp s else None
      | _ => None
      end
  | Literal c :: ns' =>
      match s with
      | x :: s' =>
          if N.eqb x c
          then option_map (fun g => if grp then x :: g else g)
                          (match_here ns' false grp s')
          else None
      | [] => None
      end
  | OneOf items :: ns' =>
      match s with
      | x :: s' =>
          if in_set items x
          then option_map (fun g => if grp then x :: g else g)
                          (match_here ns' false grp s')
          else None
      | [] => None
      end
  end.

Fixpoint search_from (ns : list node) (pos0 : bool) (s : str) : option str :=
  match match_here ns pos0 false s with
  | Some g => Some g
  | None =>
      match s with
      | [] => None
      | _ :: s' => search_from ns false s'
      end
  end.

(** [re.search(pattern, s)], reduced to [match.group(1)]. *)
Definition search (ns : list node) (s : str) : option str :=
  search_from ns true s.

Definition literal (s : string) : list node := map Literal (py s).

(** [[a-zA-Z0-9_-]] *)
Definition id_set : list set_item :=
  [Range 97 122; Range 65 90; Range 48 57; Single 95; Single 45].

(** [([a-zA-Z0-9_-]{11})] *)
Definition id_group : list node :=
  Open :: repeat (OneOf id_set) 11 ++ [Close].

End Re.

(** ** [extract_video_id] *)

(** The three patterns of lines 53-55. *)
Definition pattern_query : list Re.node :=
  Re.OneOf [Re.Single 63; Re.Single 38] :: Re.literal "v=" ++ Re.id_group.

Definition pattern_short : list Re.node := Re.literal "youtu.be/" ++ Re.id_group.

Definition pattern_bare : list Re.node := Re.Caret :: Re.id_group ++ [Re.Dollar].

Definition patterns : list (list Re.node) :=
  [pattern_query; pattern_short; pattern_bare].

Fixpoint first_match (ps : list (list Re.node)) (url : str) : option str :=
  match ps with
  | [] => None
  | pattern :: ps' =>
      match Re.search pattern url with
      | Some g => Some g
      | None => first_match ps' url
      end
  end.

Definition extract_video_id (url : str) : str :=
  match first_match patterns url with
  | Some g => g
  | None => url
  end.

(** ** The document printed by the extraction tool *)

(** What [json.loads] builds: [None], [bool], [int], [float], [str],
    [list] and [dict] (keys in insertion order, looked up by the first
    entry of a key). A float is kept as its IEEE-754 bit pattern; the
    program never computes on one. *)
Inductive json :=
| JNull
| JBool (b : bool)
| JInt (n : Z)
| JFloat (bits : N)
| JStr (s : str)
| JArr (items : list json)
| JObj (members : list (str * json)).

Inductive pytype := NoneType | Bool | Int | Float | Str | List | Dict.

Definition type_of (v : json) : pytype :=
  match v with
  | JNull => NoneType
  | JBool _ => Bool
  | JInt _ => Int
  | JFloat _ => Float
  | JStr _ => Str
  | JArr _ => List
  | JObj _ => Dict
  end.

Fixpoint lookup (k : str) (m : list (str * json)) : option json :=
  match m with
  | [] => None
  | (k', v) :: m' => if str_eqb k k' then Some v else lookup k m'
  end.

Fixpoint keys (m : list (str * json)) : list str :=
  match m with
  | [] => []
  | (k, _) :: m' => k :: filter (fun k' => negb (str_eqb k k')) (keys m')
  end.

(** ** Exceptions *)

(** The operation at which the interpreter raised a [TypeError]. *)
Inductive operation :=
| OpIn                      (* [x in v] *)
| OpSubscript               (* [v[k]] *)
| OpJoin                    (* [sep.join(v)] *)
| OpJoinItem (i : nat)      (* item [i] of the argument of [join] *)
| OpArgument.               (* an element of the command of [subprocess.run] *)

Inductive exn :=
| TimeoutExpired (cmd : list str) (timeout : Z)
| JSONDecodeError (doc : str)
| HTTPException (status_code : Z) (detail : str)
| Exception (msg : str)                 (* [raise Exception(msg)] *)
| KeyError (key : json)
| IndexError (ty : pytype)
| TypeError (op : operation) (ty : pytype)
| AttributeError (ty : pytype) (name : str)
| ParseError (doc : str)                (* [xml.etree.ElementTree.ParseError] *)
| ValidationError (fields : list str)   (* pydantic *)
| OtherError (text : str).              (* any other one of [subprocess.run]
                                           or [json.loads], with its [str()] *)

Inductive result (A : Type) :=
| Ok (a : A)
| Err (e : exn).

Arguments Ok {A} a.
Arguments Err {A} e.

Definition rbind {A B} (r : result A) (k : A -> result B) : result B :=
  match r with
  | Ok a => k a
  | Err e => Err e
  end.

Notation "x <~ r ;; k" := (rbind r (fun x => k))
  (at level 61, r at next level, right associativity).

(** ** Python's operations on the document *)

(** [key in v] for a string [key]. *)
Definition contains (key : str) (v : json) : result bool :=
  match v with
  | JObj m => Ok (match lookup key m with Some _ => true | None => false end)
  | JArr l => Ok (existsb (fun x => match x with
                                    | JStr s => str_eqb s key
                                    | _ => false
                                    end) l)
  | JStr s => Ok (str_contains key s)
  | _ => Err (TypeError OpIn (type_of v))
  end.

(** [v[key]] for a string [key]. *)
Definition getitem (v : json) (key : str) : result json :=
  match v with
  | JObj m =>
      match lookup key m with
      | Some x => Ok x
      | None => Err (KeyError (JStr key))
      end
  | _ => Err (TypeError OpSubscript (type_of v))
  end.

(** [v[0]]. The keys of a [dict] built by [json.loads] are strings. *)
Definition getitem0 (v : json) : result json :=
  match v with
  | JArr (x :: _) => Ok x
  | JArr [] => Err (IndexError List)
  | JStr (c :: _) => Ok (JStr [c])
  | JStr [] => Err (IndexError Str)
  | JObj _ => Err (KeyError (JInt 0))
  | _ => Err (TypeError OpSubscript (type_of v))
  end.

(** [v.get(key, default)]. *)
Definition dict_get (v : json) (key : str) (default : json) : result json :=
  match v with
  | JObj m =>
      match lookup key m with
      | Some x => Ok x
      | None => Ok default
      end
  | _ => Err (AttributeError (type_of v) (py "get"))
  end.

(** The items [str.join] receives from its argument. *)
Definition iterate (v : json) : result (list json) :=
  match v with
  | JArr l => Ok l
  | JStr s => Ok (map (fun c => JStr [c]) s)
  | JObj m => Ok (map JStr (keys m))
  | _ => Err (TypeError OpJoin (type_of v))
  end.

(** [sep.join(items)]: the first item that is not a [str] raises. *)
Fixpoint join_from (i : nat) (sep : str) (items : list json) : result str :=
  match items with
  | [] => Ok []
  | JStr s :: rest =>
      match rest with
      | [] => Ok s
      | _ :: _ => t <~ join_from (S i) sep rest ;; Ok (s ++ sep ++ t)
      end
  | x :: _ => Err (TypeError (OpJoinItem i) (type_of x))
  end.

Definition str_join (sep : str) (v : json) : result str :=
  items <~ iterate v ;; join_from 0 sep items.

(** ** The timed-text document *)

Inductive Element := mkElement {
  tag : str;
  attrib : list (str * str);
  text : option str;
  tail : option str;
  children : list Element
}.

(** [elem.iter(tag)]: the element and its descendants with this tag,
    in document order. *)
Fixpoint iter (t : str) (e : Element) : list Element :=
  match e with
  | mkElement t' _ _ _ cs =>
      (if str_eqb t' t then [e] else []) ++ flat_map (iter t) cs
  end.

(** [root.findall('.//' + t)]: [iter] without the root itself. *)
Definition findall_descendants (t : str) (root : Element) : list Element :=
  flat_map (iter t) (children root).

(** A [str | None] as a Python value. *)
Definition of_text (o : option str) : json :=
  match o with
  | Some s => JStr s
  | None => JNull
  end.

(** ** Records of the program *)

Record TranscriptRequest := { video_id : str }.

(** The [dict] returned by [get_yt_dlp_data]; its keys are fixed. *)
Module VideoData.
Record t := mk {
  videoTitle : json;
  videoId : str;
  channelName : json;
  channelUrl : json;
  description : json;
  duration : json;
  viewCount : json;
  likeCount : json;
  uploadDate : json;
  tags : str;
  categories : str;
  thumbnailUrl : json;
  transcript : str;
  length : Z
}.
End VideoData.

Module TranscriptResponse.
Record t := mk {
  success : bool;
  videoId : str;
  videoTitle : option str;
  channelName : option str;
  channelUrl : option str;
  description : option str;
  duration : option Z;
  viewCount : option Z;
  likeCount : option Z;
  uploadDate : option str;
  tags : option str;
  categories : option str;
  thumbnailUrl : option str;
  transcript : option str;
  length : option Z;
  error : option str
}.
End TranscriptResponse.

Record CompletedProcess := {
  returncode : Z;
  stdout : str;
  stderr : str
}.

(** How [json.loads] ends on a text. *)
Inductive loads_outcome :=
| Parsed (v : json)
| NotJSON                     (* [json.JSONDecodeError] *)
| LoadsError (text : str).    (* any other exception ([ValueError] on a number
                                 too long, [RecursionError] on deep nesting),
                                 with its [str()] *)

Inductive run_outcome :=
| Completed (p : CompletedProcess)
| TimedOut                    (* the timeout expired *)
| Failed (text : str).        (* any other exception, with its [str()] *)

(** ** Effects: the subprocesses started, in order *)

Definition call := (list str * Z)%type.

Definition M (A : Type) := list call -> result A * list call.

Definition ret {A} (a : A) : M A := fun tr => (Ok a, tr).

Definition raise {A} (e : exn) : M A := fun tr => (Err e, tr).

Definition bind {A B} (m : M A) (k : A -> M B) : M B :=
  fun tr =>
    match m tr with
    | (Ok a, tr') => k a tr'
    | (Err e, tr') => (Err e, tr')
    end.

Definition lift {A} (r : result A) : M A := fun tr => (r, tr).

(** [try: m  except ... as e: h e] *)
Definition try_except {A} (m : M A) (h : exn -> M A) : M A :=
  fun tr =>
    match m tr with
    | (Ok a, tr') => (Ok a, tr')
    | (Err e, tr') => h e tr'
    end.

Notation "x <- m ;; k" := (bind m (fun x => k))
  (at level 61, m at next level, right associativity).

Definition obind {A B} (o : option A) (k : A -> option B) : option B :=
  match o with
  | Some a => k a
  | None => None
  end.

Notation "x <~~ o ;; k" := (obind o (fun x => k))
  (at level 61, o at next level, right associativity).

(** ** The pipeline *)

Section Pipeline.

(** [subprocess.run(cmd, capture_output=True, text=True, timeout=t)]. *)
Variable run : list str -> Z -> run_outcome.

(** [json.loads]. *)
Variable json_loads : str -> loads_outcome.

(** [xml.etree.ElementTree.fromstring]; [None] is [ParseError]. *)
Variable ET_fromstring : str -> option Element.

(** [str(e)] of an exception the interpreter or a library raised. *)
Variable describe : exn -> str.

(** pydantic's conversion of a value of another type to a [str] or
    [int] field; [None] where it refuses the value. *)
Variable lax_str : json -> option str.
Variable lax_int : json -> option Z.

Definition str_of (e : exn) : str :=
  match e with
  | Exception msg => msg
  | OtherError text => text
  | _ => describe e
  end.

Definition subprocess_run (cmd : list str) (timeout : Z) : M CompletedProcess :=
  fun tr =>
    (match run cmd timeout with
     | Completed p => Ok p
     | TimedOut => Err (TimeoutExpired cmd timeout)
     | Failed text => Err (OtherError text)
     end, tr ++ [(cmd, timeout)]).

(** An element of a command must be a [str]. *)
Definition argument (v : json) : result str :=
  match v with
  | JStr s => Ok s
  | _ => Err (TypeError OpArgument (type_of v))
  end.

Definition loads (doc : str) : result json :=
  match json_loads doc with
  | Parsed v => Ok v
  | NotJSON => Err (JSONDecodeError doc)
  | LoadsError text => Err (OtherError text)
  end.

Definition fromstring (doc : str) : result Element :=
  match ET_fromstring doc with
  | Some root => Ok root
  | None => Err (ParseError doc)
  end.

(** [kind in data and 'en' in data[kind]] *)
Definition has_track (kind : str) (data : json) : result bool :=
  b <~ contains kind data ;;
  if b then tracks <~ getitem data kind ;; contains (py "en") tracks
  else Ok false.

(** [data[kind]['en'][0]['url']] *)
Definition track_url (kind : str) (data : json) : result json :=
  tracks <~ getitem data kind ;;
  en <~ getitem tracks (py "en") ;;
  first <~ getitem0 en ;;
  getitem first (py "url").

(** [' '.join([text.text for text in root.findall('.//text')])] *)
Definition join_texts (root : Element) : result str :=
  str_join (py " ")
    (JArr (map (fun e => of_text (text e)) (findall_descendants (py "text") root))).

(** The body of either branch of lines 96-119: the two differ in the
    key, ['subtitles'] or ['automatic_captions'], only. *)
Definition fetch_transcript (kind : str) (data : json) : M str :=
  sub_file <- lift (track_url kind data) ;;
  arg <- lift (argument sub_file) ;;
  transcript_result <- subprocess_run [py "curl"; py "-s"; arg] 30 ;;
  root <- lift (fromstring (stdout transcript_result)) ;;
  lift (join_texts root).

(** Lines 94-119. *)
Definition caption_stage (data : json) : M str :=
  manual <- lift (has_track (py "subtitles") data) ;;
  if manual then fetch_transcript (py "subtitles") data
  else
    automatic <- lift (has_track (py "automatic_captions") data) ;;
    if automatic then fetch_transcript (py "automatic_captions") data
    else ret [].

(** Lines 122-137. *)
Definition assemble (video_id : str) (data : json) (transcript : str)
  : result VideoData.t :=
  videoTitle <~ dict_get data (py "title") (JStr []) ;;
  channelName <~ dict_get data (py "channel") (JStr []) ;;
  channelUrl <~ dict_get data (py "channel_url") (JStr []) ;;
  description <~ dict_get data (py "description") (JStr []) ;;
  duration <~ dict_get data (py "duration") (JInt 0) ;;
  viewCount <~ dict_get data (py "view_count") (JInt 0) ;;
  likeCount <~ dict_get data (py "like_count") (JInt 0) ;;
  uploadDate <~ dict_get data (py "upload_date") (JStr []) ;;
  tags_list <~ dict_get data (py "tags") (JArr []) ;;
  tags <~ str_join (py ", ") tags_list ;;
  categories_list <~ dict_get data (py "categories") (JArr []) ;;
  categories <~ str_join (py ", ") categories_list ;;
  thumbnailUrl <~ dict_get data (py "thumbnail") (JStr []) ;;
  Ok (VideoData.mk videoTitle video_id channelName channelUrl description
        duration viewCount likeCount uploadDate tags categories thumbnailUrl
        transcript (Z.of_nat (List.length transcript))).

Definition yt_dlp_command (video_id : str) : list str :=
  let url := py "https://www.youtube.com/watch?v=" ++ video_id in
  [ py "yt-dlp"; py "--dump-json"; py "--write-subs"; py "--write-auto-subs";
    py "--sub-lang"; py "en"; py "--skip-download"; url ].

(** The [try] block of [get_yt_dlp_data]. *)
Definition get_yt_dlp_data_body (video_id : str) : M VideoData.t :=
  let cmd := yt_dlp_command video_id in
  result <- subprocess_run cmd 60 ;;
  if negb (Z.eqb (returncode result) 0)
  then raise (Exception (py "yt-dlp error: " ++ stderr result))
  else
    data <- lift (loads (stdout result)) ;;
    transcript <- caption_stage data ;;
    lift (assemble video_id data transcript).

(** The extraction tool ran, exited with 0 and printed a document. *)
Definition extracted (video_id : str) (data : json) : Prop :=
  exists p, run (yt_dlp_command video_id) 60 = Completed p /\
            returncode p = 0%Z /\ json_loads (stdout p) = Parsed data.

(** Its [except] clauses, in order. *)
Definition get_yt_dlp_data_handler (e : exn) : M VideoData.t :=
  match e with
  | TimeoutExpired _ _ => raise (Exception (py "Request timeout"))
  | JSONDecodeError _ => raise (Exception (py "Invalid JSON response from yt-dlp"))
  | _ => raise (Exception (py "Error: " ++ str_of e))
  end.

Definition get_yt_dlp_data (video_id : str) : M VideoData.t :=
  try_except (get_yt_dlp_data_body video_id) get_yt_dlp_data_handler.

(** *** [TranscriptResponse(...)]: pydantic checks the fields *)

Definition as_str (v : json) : option (option str) :=
  match v with
  | JNull => Some None
  | JStr s => Some (Some s)
  | _ => option_map Some (lax_str v)
  end.

Definition as_int (v : json) : option (option Z) :=
  match v with
  | JNull => Some None
  | JInt n => Some (Some n)
  | _ => option_map Some (lax_int v)
  end.

Definition refused {A} (name : string) (o : option A) : list str :=
  match o with
  | Some _ => []
  | None => [py name]
  end.

Definition refused_fields (data : VideoData.t) : list str :=
  refused "videoTitle" (as_str (VideoData.videoTitle data)) ++
  refused "channelName" (as_str (VideoData.channelName data)) ++
  refused "channelUrl" (as_str (VideoData.channelUrl data)) ++
  refused "description" (as_str (VideoData.description data)) ++
  refused "duration" (as_int (VideoData.duration data)) ++
  refused "viewCount" (as_int (VideoData.viewCount data)) ++
  refused "likeCount" (as_int (VideoData.likeCount data)) ++
  refused "uploadDate" (as_str (VideoData.uploadDate data)) ++
  refused "thumbnailUrl" (as_str (VideoData.thumbnailUrl data)).

(** Lines 203-219. *)
Definition success_response (video_id : str) (data : VideoData.t)
  : result TranscriptResponse.t :=
  match
    videoTitle <~~ as_str (VideoData.videoTitle data) ;;
    channelName <~~ as_str (VideoData.channelName data) ;;
    channelUrl <~~ as_str (VideoData.channelUrl data) ;;
    description <~~ as_str (VideoData.description data) ;;
    duration <~~ as_int (VideoData.duration data) ;;
    viewCount <~~ as_int (VideoData.viewCount data) ;;
    likeCount <~~ as_int (VideoData.likeCount data) ;;
    uploadDate <~~ as_str (VideoData.uploadDate data) ;;
    thumbnailUrl <~~ as_str (VideoData.thumbnailUrl data) ;;
    Some (TranscriptResponse.mk true video_id videoTitle channelName
            channelUrl description duration viewCount likeCount uploadDate
            (Some (VideoData.tags data)) (Some (VideoData.categories data))
            thumbnailUrl (Some (VideoData.transcript data))
            (Some (VideoData.length data)) None)
  with
  | Some r => Ok r
  | None => Err (ValidationError (refused_fields data))
  end.

(** Lines 224-228. *)
Definition failure_response (raw : str) (message : str) : TranscriptResponse.t :=
  TranscriptResponse.mk false raw None None None None None None None None
    None None None None None (Some message).

Definition get_transcript (request : TranscriptRequest)
  : M TranscriptResponse.t :=
  try_except
    (let video_id := extract_video_id (video_id request) in
     if negb (Nat.eqb (List.length video_id) 11)
     then raise (HTTPException 400
                   (py "Invalid video_id: " ++ video_id ++
                    py ". Must be 11 characters."))
     else
       data <- get_yt_dlp_data video_id ;;
       lift (success_response video_id data))
    (fun e =>
       match e with
       | HTTPException _ _ => raise e
       | _ => ret (failure_response (video_id request) (str_of e))
       end).

Definition get_transcript_get (video_id : str) : M TranscriptResponse.t :=
  let request := {| video_id := video_id |} in
  get_transcript request.

End Pipeline.

(** ** What the framework sends *)

(** The answer FastAPI prepares for the outcome of a handler: status
    200 and the returned model, the status and detail of a raised
    [HTTPException], 500 for any other exception. The answer is encoded
    as UTF-8 JSON afterwards; [deliver], below, adds that step. *)
Inductive http_response :=
| Json (status : Z) (body : TranscriptResponse.t)
| Problem (status : Z) (detail : str).

Definition respond (r : result TranscriptResponse.t) : http_response :=
  match r with
  | Ok body => Json 200 body
  | Err (HTTPException status detail) => Problem status detail
  | Err _ => Problem 500 (py "Internal Server Error")
  end.

(** A code point that UTF-8 encodes: any but a surrogate. *)
Definition encodable_char (c : char) : bool :=
  N.ltb c 55296 || N.ltb 57343 c.

Definition encodable (s : str) : bool := forallb encodable_char s.

Definition encodable_field (o : option str) : bool :=
  match o with
  | Some s => encodable s
  | None => true
  end.

Definition encodable_body (b : TranscriptResponse.t) : bool :=
  encodable (TranscriptResponse.videoId b) &&
  encodable_field (TranscriptResponse.videoTitle b) &&
  encodable_field (TranscriptResponse.channelName b) &&
  encodable_field (TranscriptResponse.channelUrl b) &&
  encodable_field (TranscriptResponse.description b) &&
  encodable_field (TranscriptResponse.uploadDate b) &&
  encodable_field (TranscriptResponse.tags b) &&
  encodable_field (TranscriptResponse.categories b) &&
  encodable_field (TranscriptResponse.thumbnailUrl b) &&
  encodable_field (TranscriptResponse.transcript b) &&
  encodable_field (TranscriptResponse.error b).

(** What is sent: the prepared answer, or a 500 when one of its strings
    holds a lone surrogate and the encoding raises. *)
Definition deliver (r : result TranscriptResponse.t) : http_response :=
  match respond r with
  | Json status body =>
      if encodable_body body then Json status body
      else Problem 500 (py "Internal Server Error")
  | Problem status detail =>
      if encodable detail then Problem status detail
      else Problem 500 (py "Internal Server Error")
  end.

(** ** The shapes [extract_video_id] recognises, in words *)

Module Shape.

Local Open Scope N_scope.

Definition is_letter (c : char) : Prop :=
  (97 <= c /\ c <= 122) \/ (65 <= c /\ c <= 90).

Definition is_digit (c : char) : Prop := 48 <= c /\ c <= 57.

(** A letter, a digit, an underscore or a hyphen. *)
Definition id_char (c : char) : Prop :=
  is_letter c \/ is_digit c \/ c = 95 \/ c = 45.

(** Eleven identifier characters. *)
Definition identifier (g : str) : Prop :=
  List.length g = 11%nat /\ Forall id_char g.

(** [?v=] or [&v=]. *)
Definition query_lead (l : str) : Prop := l = py "?v=" \/ l = py "&v=".

(** [youtu.be/]. *)
Definition short_lead (l : str) : Prop := l = py "youtu.be/".

(** After [pre], [s] goes on with a lead and the identifier [g]. *)
Definition occurs (lead : str -> Prop) (s pre g : str) : Prop :=
  exists l post, lead l /\ identifier g /\ s = pre ++ l ++ g ++ post.

Definition first_occurrence (lead : str -> Prop) (s g : str) : Prop :=
  exists pre,
    occurs lead s pre g /\
    forall pre' g', occurs lead s pre' g' ->
                    (List.length pre <= List.length pre')%nat.

Definition absent (lead : str -> Prop) (s : str) : Prop :=
  forall pre g, ~ occurs lead s pre g.

(** The whole input is the identifier. *)
Definition whole (s g : str) : Prop := s = g.

(** The whole input is the identifier, or the identifier and one
    final newline. *)
Definition whole_line (s g : str) : Prop := s = g \/ s = g ++ [10].

(** The result for an input: the three shapes in order, the input
    itself when none applies. [bare] is the third shape. *)
Inductive normalizes (bare : str -> str -> Prop) (s : str) : str -> Prop :=
| by_query g :
    first_occurrence query_lead s g -> normalizes bare s g
| by_short g :
    absent query_lead s -> first_occurrence short_lead s g ->
    normalizes bare s g
| by_bare g :
    absent query_lead s -> absent short_lead s ->
    identifier g -> bare s g -> normalizes bare s g
| unchanged :
    absent query_lead s -> absent short_lead s ->
    (forall g, identifier g -> ~ bare s g) -> normalizes bare s s.

End Shape.

(** ** What the patterns match at a position, written directly *)

Module Direct.
Import Re.

(** The first eleven characters of [s], when they are identifier
    characters. *)
Definition id_prefix (s : str) : option str :=
  if (11 <=? List.length s)%nat && forallb (in_set id_set) (firstn 11 s)
  then Some (firstn 11 s) else None.

(** What each of the first two patterns matches at a given position. *)
Definition query_here (s : str) : option str :=
  match s with
  | x :: s' =>
      if in_set [Single 63; Single 38] x
      then if starts_with (py "v=") s' then id_prefix (skipn 2 s') else None
      else None
  | [] => None
  end.

Definition short_here (s : str) : option str :=
  if starts_with (py "youtu.be/") s then id_prefix (skipn 9 s) else None.

(** The third pattern, at position 0. *)
Definition bare_here (s : str) : option str :=
  match id_prefix s with
  | Some g =>
      match skipn 11 s with
      | [] => Some g
      | [c] => if N.eqb c 10 then Some g else None
      | _ => None
      end
  | None => None
  end.

End Direct.

(** ** Words of the specification about the pipeline *)

(** The strings of [l], with [sep] between neighbours. *)
Fixpoint joined (sep : str) (l : list str) : str :=
  match l with
  | [] => []
  | s :: rest =>
      match rest with
      | [] => s
      | _ :: _ => s ++ sep ++ joined sep rest
      end
  end.

(** The value under a key of the record, the default when the key is
    absent. *)
Definition field_or (m : list (str * json)) (key : string) (default : json)
  : json :=
  match lookup (py key) m with
  | Some v => v
  | None => default
  end.

(** A list-valued field of the record: absent, and then [l] is empty,
    or the list of the strings [l]. *)
Definition string_list (m : list (str * json)) (key : string) (l : list str)
  : Prop :=
  match lookup (py key) m with
  | Some v => v = JArr (map JStr l)
  | None => l = []
  end.

(** The two subprocesses, as they appear in the trace. *)
Definition tool (video_id : str) : call := (yt_dlp_command video_id, 60%Z).

Definition curl (u : str) : call := ([py "curl"; py "-s"; u], 30%Z).

(** The caption track the caption stage uses. *)
Inductive selected (data : json) : str -> Prop :=
| manual :
    has_track (py "subtitles") data = Ok true ->
    selected data (py "subtitles")
| automatic :
    has_track (py "subtitles") data = Ok false ->
    has_track (py "automatic_captions") data = Ok true ->
    selected data (py "automatic_captions").

(** The text of every element matched by [.//text]. *)
Definition texts (root : Element) : list (option str) :=
  map text (findall_descendants (py "text") root).

(** ** A small world to run the pipeline in *)

Module Stub.

(** The extraction tool ends as [tool], any other command as [fetch]. *)
Definition run (tool fetch : run_outcome) (cmd : list str) (timeout : Z)
  : run_outcome :=
  match cmd with
  | c :: _ => if str_eqb c (py "yt-dlp") then tool else fetch
  | [] => Failed []
  end.

Definition json_loads (doc : option json) (s : str) : loads_outcome :=
  match doc with
  | Some v => Parsed v
  | None => NotJSON
  end.

(** A parser that gives up on every text with an exception of its own. *)
Definition json_gives_up (text : string) (s : str) : loads_outcome :=
  LoadsError (py text).

Definition ET_fromstring (root : option Element) (s : str) : option Element :=
  root.

Definition describe (e : exn) : str :=
  match e with
  | TypeError (OpJoinItem 0) NoneType =>
      py "sequence item 0: expected str instance, NoneType found"
  | _ => py "error"
  end.

Definition lax_str (v : json) : option str := None.

Definition lax_int (v : json) : option Z := None.

Definition finished (rc : Z) (out err : string) : run_outcome :=
  Completed {| returncode := rc; stdout := py out; stderr := py err |}.

Definition caption (s : string) : Element :=
  mkElement (py "text") [] (Some (py s)) None [].

Definition timedtext (cues : list Element) : Element :=
  mkElement (py "transcript") [] None None cues.

Definition track (u : string) : json :=
  JObj [(py "en", JArr [JObj [(py "ext", JStr (py "srv1"));
                             (py "url", JStr (py u))]])].

(** An element [<text/>]. *)
Definition silent : Element := mkElement (py "text") [] None None [].

(** A record with a manual and an automatic English track. *)
Definition members : list (str * json) :=
  [ (py "title", JStr (py "Song"));
    (py "duration", JInt 212);
    (py "tags", JArr [JStr (py "music"); JStr (py "live")]);
    (py "subtitles", track "https://example.org/manual");
    (py "automatic_captions", track "https://example.org/auto") ].

Definition record : json := JObj members.

(** A record with an automatic English track only. *)
Definition automatic_record : json :=
  JObj [ (py "title", JStr (py "Song"));
         (py "subtitles", JObj []);
         (py "automatic_captions", track "https://example.org/auto") ].

(** A record without caption entries. *)
Definition bare_record : json :=
  JObj [ (py "title", JStr (py "Song")); (py "duration", JInt 212) ].

End Stub.

(** ** Worlds built from the stubs *)

Module World.

Definition id : str := py "dQw4w9WgXcQ".
Definition manual_url : str := py "https://example.org/manual".
Definition page : run_outcome := Stub.finished 0 "{}" "".
Definition document : run_outcome := Stub.finished 0 "<transcript/>" "".
Definition hello_world : Element :=
  Stub.timedtext [Stub.caption "Hello"; Stub.caption "world"].

Definition watch_url : str := py "https://www.youtube.com/watch?v=dQw4w9WgXcQ".

Definition with_silence : Element :=
  Stub.timedtext [Stub.caption "Hello"; Stub.silent; Stub.caption "world"].

(** How the two subprocesses end. *)
Definition fine : list str -> Z -> run_outcome := Stub.run page document.

Definition tool_times_out : list str -> Z -> run_outcome :=
  Stub.run TimedOut document.

Definition fetch_times_out : list str -> Z -> run_outcome :=
  Stub.run page TimedOut.

Definition not_json : list str -> Z -> run_outcome :=
  Stub.run (Stub.finished 0 "<html>" "") document.

Definition unavailable : list str -> Z -> run_outcome :=
  Stub.run (Stub.finished 1 "" "ERROR: Video unavailable") document.

(** What the parsers make of the outputs. *)
Definition reads : str -> loads_outcome := Stub.json_loads (Some Stub.record).

Definition refuses : str -> loads_outcome := Stub.json_loads None.

Definition gives_up : str -> loads_outcome :=
  Stub.json_gives_up
    "Exceeds the limit (4300 digits) for integer string conversion".

Definition parses : str -> option Element :=
  Stub.ET_fromstring (Some hello_world).

Definition parses_silence : str -> option Element :=
  Stub.ET_fromstring (Some with_silence).

(** A world where the tool prints [data] and the fetch returns [root]. *)
Definition serve (data : json) (root : Element) (request : TranscriptRequest)
  : M TranscriptResponse.t :=
  get_transcript (Stub.run page document) (Stub.json_loads (Some data))
    (Stub.ET_fromstring (Some root)) Stub.describe Stub.lax_str Stub.lax_int
    request.

(** A world where the tool ends as [tool] and the fetch as [fetch]. *)
Definition serve_failing (tool fetch : run_outcome) (request : TranscriptRequest)
  : M TranscriptResponse.t :=
  get_transcript (Stub.run tool fetch) (Stub.json_loads (Some Stub.record))
    (Stub.ET_fromstring (Some hello_world)) Stub.describe Stub.lax_str
    Stub.lax_int request.

End World.

(** ** More words about inputs and outcomes *)

Module Words.

(** Neither [?] nor [&]. *)
Definition plain (c : char) : Prop := c <> 63%N /\ c <> 38%N.

(** The page address [get_yt_dlp_data] builds for an identifier
    (line 69). *)
Definition watch_page (video_id : str) : str :=
  py "https://www.youtube.com/watch?v=" ++ video_id.


(** An exception of the interpreter, of the XML parser or of pydantic:
    one that no [except] clause of the program names. *)
Definition unnamed (e : exn) : Prop :=
  match e with
  | KeyError _ | IndexError _ | TypeError _ _ | AttributeError _ _
  | ParseError _ | ValidationError _ => True
  | _ => False
  end.

(** A value [str.join] cannot iterate over. *)
Definition not_iterable (v : json) : Prop :=
  match v with
  | JNull | JBool _ | JInt _ | JFloat _ => True
  | _ => False
  end.

(** The record [get_yt_dlp_data] returns for a document with members
    [m], a transcript, and tags and categories that are absent or lists
    of strings. *)
Definition assembled (video_id : str) (m : list (str * json)) (transcript : str)
    (tags categories : list str) : VideoData.t :=
  VideoData.mk
    (field_or m "title" (JStr []))
    video_id
    (field_or m "channel" (JStr []))
    (field_or m "channel_url" (JStr []))
    (field_or m "description" (JStr []))
    (field_or m "duration" (JInt 0))
    (field_or m "view_count" (JInt 0))
    (field_or m "like_count" (JInt 0))
    (field_or m "upload_date" (JStr []))
    (joined (py ", ") tags)
    (joined (py ", ") categories)
    (field_or m "thumbnail" (JStr []))
    transcript
    (Z.of_nat (List.length transcript)).

End Words.

(** ** More worlds *)

Module Cases.
Import World.

(** The manual track lists no resource; an automatic track exists. *)
Definition empty_track_record : json :=
  JObj [ (py "title", JStr (py "Song"));
         (py "subtitles", JObj [(py "en", JArr [])]);
         (py "automatic_captions", Stub.track "https://example.org/auto") ].

(** A null where the manual tracks should be; an automatic track
    exists. *)
Definition null_subtitles : json :=
  JObj [ (py "title", JStr (py "Song"));
         (py "subtitles", JNull);
         (py "automatic_captions", Stub.track "https://example.org/auto") ].

Definition null_tags : list (str * json) :=
  [ (py "title", JStr (py "Song")); (py "tags", JNull) ].

(** No title, a null like count, no captions. *)
Definition sparse : list (str * json) :=
  [ (py "like_count", JNull); (py "view_count", JInt 7) ].

(** A title that is a number. *)
Definition numeric_title : list (str * json) := [ (py "title", JInt 5) ].

Definition reads_of (data : json) : str -> loads_outcome :=
  Stub.json_loads (Some data).

Definition no_parse : str -> option Element := Stub.ET_fromstring None.

Definition cannot_start : list str -> Z -> run_outcome :=
  Stub.run (Failed (py "[Errno 2] No such file or directory: 'yt-dlp'"))
    document.

(** The handler in a world where both subprocesses end well and the
    tool's output reads as [data]. *)
Definition handle (data : json) (raw : str) : M TranscriptResponse.t :=
  get_transcript fine (reads_of data) parses Stub.describe Stub.lax_str
    Stub.lax_int {| video_id := raw |}.

End Cases.

(** ** The elements of a document, in words *)

Module Tree.

(** The element reached from [e] by going down to the child of each
    index of [path] in turn. *)
Fixpoint subelement (e : Element) (path : list nat) : option Element :=
  match path with
  | [] => Some e
  | i :: rest =>
      match nth_error (children e) i with
      | Some c => subelement c rest
      | None => None
      end
  end.

(** Document order on paths: an element comes before the elements
    inside it, and these before its following siblings. *)
Fixpoint before (p q : list nat) : Prop :=
  match p, q with
  | [], [] => False
  | [], _ :: _ => True
  | _ :: _, [] => False
  | i :: p', j :: q' => (i < j)%nat \/ (i = j /\ before p' q')
  end.

Fixpoint increasing (ps : list (list nat)) : Prop :=
  match ps with
  | [] => True
  | p :: rest => Forall (before p) rest /\ increasing rest
  end.

(** [es] are the elements tagged [t] strictly below [root], each once,
    in document order. *)
Definition matched_below (t : str) (root : Element) (es : list Element) : Prop :=
  exists paths,
    increasing paths /\
    (forall p, In p paths <->
               p <> [] /\ exists e, subelement root p = Some e /\ tag e = t) /\
    map (subelement root) paths = map Some es.

(** The texts of all the elements of a document that have one, the
    root included, in document order. *)
Fixpoint all_texts (e : Element) : list str :=
  match e with
  | mkElement _ _ x _ cs =>
      match x with
      | Some s => [s]
      | None => []
      end ++ flat_map all_texts cs
  end.

(** The paths of the elements [iter] returns, for the proofs. *)
Fixpoint iter_paths (t : str) (e : Element) : list (list nat) :=
  match e with
  | mkElement t' _ _ _ cs =>
      (if str_eqb t' t then [[]] else []) ++
      (fix forest (i : nat) (l : list Element) : list (list nat) :=
         match l with
         | [] => []
         | c :: l' => map (cons i) (iter_paths t c) ++ forest (S i) l'
         end) 0%nat cs
  end.

Fixpoint forest_paths (t : str) (i : nat) (l : list Element)
  : list (list nat) :=
  match l with
  | [] => []
  | c :: l' => map (cons i) (iter_paths t c) ++ forest_paths t (S i) l'
  end.

(** What the proofs show of each element: the paths are those of the
    elements [iter] returns, in document order, and they are the paths
    of the elements tagged [t] in the element. *)
Definition sound (t : str) (e : Element) : Prop :=
  map (subelement e) (iter_paths t e) = map Some (iter t e) /\
  increasing (iter_paths t e) /\
  forall p, In p (iter_paths t e) <->
            exists e', subelement e p = Some e' /\ tag e' = t.

(** The element looked up in a list of children. *)
Definition sub_in (cs : list Element) (p : list nat) : option Element :=
  match p with
  | [] => None
  | j :: q =>
      match nth_error cs j with
      | Some c => subelement c q
      | None => None
      end
  end.

(** Induction on a document: a property that holds of an element
    whenever it holds of its children holds of every element. *)
Fixpoint Element_induction (P : Element -> Prop)
    (step : forall t a x tl cs, Forall P cs -> P (mkElement t a x tl cs))
    (e : Element) : P e :=
  match e with
  | mkElement t a x tl cs =>
      step t a x tl cs
        ((fix go (l : list Element) : Forall P l :=
            match l with
            | [] => @Forall_nil Element P
            | c :: l' =>
                @Forall_cons Element P c l' (@Element_induction P step c) (go l')
            end) cs)
  end.

End Tree.

(** ** The caption tracks of a document, in words *)

Module Tracks.

(** Under [kind] the document has tracks by language, ['en'] is one of
    them, and the first resource it lists has the address [u]. *)
Definition english_track (m : list (str * json)) (kind : string) (u : str)
  : Prop :=
  exists tracks first rest,
    lookup (py kind) m = Some (JObj tracks) /\
    lookup (py "en") tracks = Some (JArr (JObj first :: rest)) /\
    lookup (py "url") first = Some (JStr u).

(** The document has no tracks of this kind, or none for ['en']. *)
Definition no_english_track (m : list (str * json)) (kind : string) : Prop :=
  lookup (py kind) m = None \/
  exists tracks,
    lookup (py kind) m = Some (JObj tracks) /\ lookup (py "en") tracks = None.

(** [u] is the address of the track to use: the manual English track
    when there is one, else the automatic one. *)
Definition caption_address (m : list (str * json)) (u : str) : Prop :=
  english_track m "subtitles" u \/
  (no_english_track m "subtitles" /\ english_track m "automatic_captions" u).

Section Fetching.

Variable run : list str -> Z -> run_outcome.
Variable ET_fromstring : str -> option Element.

(** What fetching the address [u] gives: the joined texts of the
    document [curl] prints, or the exception met on the way. *)
Definition transcript_at (u : str) : result str :=
  match run [py "curl"; py "-s"; u] 30 with
  | Completed p =>
      match ET_fromstring (stdout p) with
      | Some root => join_texts root
      | None => Err (ParseError (stdout p))
      end
  | TimedOut => Err (TimeoutExpired [py "curl"; py "-s"; u] 30)
  | Failed text => Err (OtherError text)
  end.

End Fetching.

End Tracks.

(** ** A world where each address has its own document *)

Module Web.
Import World.

Definition auto_url : str := py "https://example.org/auto".

Definition note (s : string) : Element :=
  mkElement (py "note") [] (Some (py s)) None [].

(** [<transcript><body><text>Hello</text><note>aside</note></body>
    <text>world</text></transcript>] *)
Definition manual_doc : Element :=
  Stub.timedtext
    [ mkElement (py "body") [] None None [Stub.caption "Hello"; note "aside"];
      Stub.caption "world" ].

(** [<transcript><text>Other</text><text>words</text></transcript>] *)
Definition auto_doc : Element :=
  Stub.timedtext [Stub.caption "Other"; Stub.caption "words"].

(** [<transcript><text>Hello <b>big</b> world</text><note>aside</note>
    </transcript>] *)
Definition mixed_doc : Element :=
  Stub.timedtext
    [ mkElement (py "text") [] (Some (py "Hello ")) None
        [mkElement (py "b") [] (Some (py "big")) (Some (py " world")) []];
      note "aside" ].

(** The tool prints a page; [curl] prints what the address holds, and
    nothing, with exit code 6, for an address it does not know. *)
Definition run (cmd : list str) (timeout : Z) : run_outcome :=
  match cmd with
  | [c; _; u] =>
      if str_eqb c (py "curl") then
        if str_eqb u manual_url then Stub.finished 0 "<manual/>" ""
        else if str_eqb u auto_url then Stub.finished 0 "<auto/>" ""
        else Stub.finished 6 "" ""
      else Failed []
  | _ => page
  end.

Definition ET_fromstring (s : str) : option Element :=
  if str_eqb s (py "<manual/>") then Some manual_doc
  else if str_eqb s (py "<auto/>") then Some auto_doc
  else None.

Definition automatic_members : list (str * json) :=
  [ (py "title", JStr (py "Song"));
    (py "subtitles", JObj []);
    (py "automatic_captions", Stub.track "https://example.org/auto") ].

Definition bare_members : list (str * json) :=
  [ (py "title", JStr (py "Song")); (py "duration", JInt 212) ].

(** A title with a lone surrogate. *)
Definition surrogate_title : list (str * json) :=
  [ (py "title", JStr [97%N; 55296%N]) ].

End Web.

(** * Properties *)

(** ** Strings *)

Lemma str_eqb_eq (a b : str) : str_eqb a b = true <-> a = b.
Proof.
  unfold str_eqb. destruct (list_eq_dec N.eq_dec a b); split; congruence.
Qed.

Lemma str_eqb_refl (a : str) : str_eqb a a = true.
Proof. now apply str_eqb_eq. Qed.

Lemma starts_with_app (l s : str) :
  starts_with l s = true <-> exists post, s = l ++ post.
Proof.
  revert s. induction l as [|a l IH]; intros s; simpl.
  - split; [intros _; now exists s | reflexivity].
  - destruct s as [|b s].
    + split; [discriminate | intros [post H]; discriminate].
    + rewrite andb_true_iff, N.eqb_eq, IH. split.
      * intros [-> [post ->]]. now exists post.
      * intros [post H]. injection H as -> ->. split; [reflexivity | now exists post].
Qed.

(** ** The matcher on the three patterns *)

Module ReFacts.
Import Re Direct.

Lemma option_map_id {A} (o : option A) : option_map (fun g => g) o = o.
Proof. now destruct o. Qed.

(** A run of [n] copies of a character class inside the group. *)
Lemma match_repeat (cs : list set_item) (ns : list node) (n : nat) :
  forall (b : bool) (s : str),
    match_here (repeat (OneOf cs) n ++ ns) b true s =
    if (n <=? List.length s)%nat && forallb (in_set cs) (firstn n s)
    then option_map (app (firstn n s))
           (match_here ns (b && (n =? 0)%nat) true (skipn n s))
    else None.
Proof.
  induction n as [|n IH]; intros b s.
  - cbn [repeat app firstn skipn forallb Nat.leb Nat.eqb andb].
    rewrite andb_true_r. change (app (@nil char)) with (fun g : str => g).
    now rewrite option_map_id.
  - cbn [repeat app]. destruct s as [|x s]; [reflexivity|].
    cbn [match_here firstn skipn forallb List.length Nat.leb Nat.eqb].
    rewrite andb_false_r.
    destruct (in_set cs x); cbn [andb].
    + rewrite IH. cbn [andb].
      destruct ((n <=? List.length s)%nat && forallb (in_set cs) (firstn n s));
        [|reflexivity].
      destruct (match_here ns false true (skipn n s)); reflexivity.
    + now rewrite andb_false_r.
Qed.

(** Literal characters outside the group. *)
Lemma match_literal (l : str) (ns : list node) :
  forall (b : bool) (s : str),
    match_here (map Literal l ++ ns) b false s =
    if starts_with l s
    then match_here ns (b && match l with [] => true | _ => false end) false
           (skipn (List.length l) s)
    else None.
Proof.
  induction l as [|c l IH]; intros b s.
  - cbn. now rewrite andb_true_r.
  - cbn [map app List.length]. destruct s as [|x s]; [reflexivity|].
    cbn [match_here starts_with skipn]. rewrite N.eqb_sym, andb_false_r.
    destruct (N.eqb c x); cbn [andb]; [|reflexivity].
    rewrite IH. cbn [andb].
    destruct (starts_with l s); [|reflexivity].
    now rewrite option_map_id.
Qed.

Lemma match_id_group (b : bool) (s : str) :
  match_here id_group b false s = id_prefix s.
Proof.
  unfold id_group, id_prefix. cbn [match_here app].
  rewrite match_repeat.
  destruct ((11 <=? List.length s)%nat && forallb (in_set id_set) (firstn 11 s));
    [|reflexivity].
  cbn [match_here option_map]. now rewrite app_nil_r.
Qed.

Lemma match_id_group_dollar (b : bool) (s : str) :
  match_here (id_group ++ [Dollar]) b false s =
  match id_prefix s with
  | Some g =>
      match skipn 11 s with
      | [] => Some g
      | [c] => if N.eqb c 10 then Some g else None
      | _ => None
      end
  | None => None
  end.
Proof.
  unfold id_group, id_prefix. cbn [match_here app].
  rewrite <- app_assoc. rewrite match_repeat.
  destruct ((11 <=? List.length s)%nat && forallb (in_set id_set) (firstn 11 s));
    [|reflexivity].
  cbn [match_here app].
  destruct (skipn 11 s) as [|c [|d r]]; cbn [option_map].
  - now rewrite app_nil_r.
  - destruct (N.eqb c 10); cbn [option_map]; [now rewrite app_nil_r | reflexivity].
  - reflexivity.
Qed.

End ReFacts.

(** ** The patterns and the shapes *)

Module PatternFacts.
Import Re Direct ReFacts Shape.

Lemma in_id_set (c : char) : in_set id_set c = true <-> id_char c.
Proof.
  unfold in_set, id_set, id_char, is_letter, is_digit. cbn [existsb in_item].
  rewrite !orb_true_iff, !andb_true_iff, !N.leb_le, !N.eqb_eq.
  intuition discriminate.
Qed.

Lemma id_prefix_spec (s g : str) :
  id_prefix s = Some g <-> identifier g /\ exists post, s = g ++ post.
Proof.
  unfold id_prefix, identifier. split.
  - destruct ((11 <=? List.length s)%nat && forallb (in_set id_set) (firstn 11 s))
      eqn:E; [|discriminate].
    intros Hg. assert (Eg : g = firstn 11 s) by congruence. clear Hg.
    subst g. apply andb_true_iff in E as [Hlen Hall].
    apply Nat.leb_le in Hlen. split; [split|].
    + now apply firstn_length_le.
    + apply Forall_forall. intros c Hc. apply in_id_set.
      rewrite forallb_forall in Hall. now apply Hall.
    + exists (skipn 11 s). symmetry. apply firstn_skipn.
  - intros [[Hlen Hall] [post ->]].
    assert (Hf : firstn 11 (g ++ post) = g).
    { rewrite <- Hlen. rewrite firstn_app, Nat.sub_diag, firstn_all.
      cbn [firstn]. apply app_nil_r. }
    rewrite Hf.
    assert (Hl : (11 <=? List.length (g ++ post))%nat = true).
    { apply Nat.leb_le. rewrite length_app. lia. }
    assert (Ha : forallb (in_set id_set) g = true).
    { apply forallb_forall. intros c Hc. apply in_id_set.
      rewrite Forall_forall in Hall. now apply Hall. }
    now rewrite Hl, Ha.
Qed.

Lemma patterns_eq : patterns = [pattern_query; pattern_short; pattern_bare].
Proof. reflexivity. Qed.

Lemma match_query (b : bool) (s : str) :
  match_here pattern_query b false s = query_here s.
Proof.
  unfold pattern_query, query_here, literal. destruct s as [|x s]; [reflexivity|].
  cbn [match_here]. destruct (in_set [Single 63; Single 38] x); [|reflexivity].
  rewrite option_map_id, match_literal.
  destruct (starts_with (py "v=") s); [|reflexivity].
  apply match_id_group.
Qed.

Lemma match_short (b : bool) (s : str) :
  match_here pattern_short b false s = short_here s.
Proof.
  unfold pattern_short, short_here, literal. rewrite match_literal.
  destruct (starts_with (py "youtu.be/") s); [|reflexivity].
  apply match_id_group.
Qed.

Lemma query_here_spec (s g : str) :
  query_here s = Some g <->
  exists l post, query_lead l /\ identifier g /\ s = l ++ g ++ post.
Proof.
  unfold query_here, query_lead. split.
  - destruct s as [|x s]; [discriminate|].
    destruct (in_set [Single 63; Single 38] x) eqn:Ex; [|discriminate].
    destruct (starts_with (py "v=") s) eqn:Ev; [|discriminate].
    intros Hg. apply id_prefix_spec in Hg as [Hid [post Hpost]].
    apply starts_with_app in Ev as [rest ->]. cbn [py map list_ascii_of_string
      app skipn List.length] in Hpost. cbn in Hpost. subst rest.
    unfold in_set in Ex. cbn [existsb in_item] in Ex.
    rewrite !orb_true_iff, !N.eqb_eq in Ex.
    destruct Ex as [-> | [-> | Hf]]; [| |discriminate].
    + exists (py "?v="), post. split; [now left | split; [assumption|reflexivity]].
    + exists (py "&v="), post. split; [now right | split; [assumption|reflexivity]].
  - intros (l & post & [-> | ->] & Hid & ->); cbn;
      apply id_prefix_spec; (split; [assumption | now exists post]).
Qed.

Lemma short_here_spec (s g : str) :
  short_here s = Some g <->
  exists l post, short_lead l /\ identifier g /\ s = l ++ g ++ post.
Proof.
  unfold short_here, short_lead. split.
  - destruct (starts_with (py "youtu.be/") s) eqn:Ev; [|discriminate].
    intros Hg. apply id_prefix_spec in Hg as [Hid [post Hpost]].
    apply starts_with_app in Ev as [rest ->]. cbn in Hpost. subst rest.
    exists (py "youtu.be/"), post.
    split; [reflexivity | split; [assumption | reflexivity]].
  - intros (l & post & -> & Hid & ->). cbn.
    apply id_prefix_spec. split; [assumption | now exists post].
Qed.

End PatternFacts.

(** ** [re.search]: the leftmost position *)

Section Search.
Import Re Shape.

Variable ns : list node.
Variable here : str -> option str.
Hypothesis match_here_is : forall b s, match_here ns b false s = here s.

Lemma search_from_some (s : str) : forall (b : bool) (g : str),
  search_from ns b s = Some g <->
  exists pre rest,
    s = pre ++ rest /\ here rest = Some g /\
    forall pre' rest', s = pre' ++ rest' ->
                       (List.length pre' < List.length pre)%nat ->
                       here rest' = None.
Proof.
  induction s as [|x s IH]; intros b g; cbn [search_from];
    rewrite match_here_is.
  - split.
    + destruct (here []) eqn:E; [|discriminate]. intros [= ->].
      exists [], []. repeat split; auto. cbn. intros; lia.
    + intros (pre & rest & Hs & Hg & _).
      symmetry in Hs. apply app_eq_nil in Hs as [-> ->]. now rewrite Hg.
  - destruct (here (x :: s)) eqn:E.
    + split.
      * intros [= ->]. exists [], (x :: s). repeat split; auto.
        cbn. intros; lia.
      * intros (pre & rest & Hs & Hg & Hmin). destruct pre as [|y pre].
        -- cbn in Hs. subst rest. congruence.
        -- specialize (Hmin [] (x :: s) eq_refl). cbn in Hmin.
           rewrite Hmin in E by lia. discriminate.
    + rewrite IH. split.
      * intros (pre & rest & -> & Hg & Hmin). exists (x :: pre), rest.
        repeat split; auto. intros pre' rest' Hs Hlt.
        destruct pre' as [|y pre'].
        -- cbn in Hs. now subst rest'.
        -- cbn in Hs. injection Hs as <- Hs. apply (Hmin pre' rest' Hs).
           cbn in Hlt. lia.
      * intros (pre & rest & Hs & Hg & Hmin). destruct pre as [|y pre].
        -- cbn in Hs. subst rest. congruence.
        -- cbn in Hs. injection Hs as <- Hs. exists pre, rest.
           repeat split; auto. intros pre' rest' Hs' Hlt.
           apply (Hmin (x :: pre') rest').
           ++ cbn. now rewrite Hs'.
           ++ cbn. lia.
Qed.

Lemma search_from_none (s : str) : forall (b : bool),
  search_from ns b s = None <->
  forall pre rest, s = pre ++ rest -> here rest = None.
Proof.
  induction s as [|x s IH]; intros b; cbn [search_from];
    rewrite match_here_is.
  - split.
    + destruct (here []) eqn:E; [discriminate|]. intros _ pre rest Hs.
      symmetry in Hs. now apply app_eq_nil in Hs as [-> ->].
    + intros H. now rewrite (H [] [] eq_refl).
  - destruct (here (x :: s)) eqn:E.
    + split; [discriminate|]. intros H.
      rewrite (H [] (x :: s) eq_refl) in E. discriminate.
    + rewrite IH. split.
      * intros H pre rest Hs. destruct pre as [|y pre].
        -- cbn in Hs. now subst rest.
        -- cbn in Hs. injection Hs as <- Hs. now apply (H pre rest).
      * intros H pre rest Hs. apply (H (x :: pre) rest). cbn. now rewrite Hs.
Qed.

Variable lead : str -> Prop.
Hypothesis here_spec : forall s g,
  here s = Some g <->
  exists l post, lead l /\ identifier g /\ s = l ++ g ++ post.

Lemma occurs_here (s pre g : str) :
  occurs lead s pre g <-> exists rest, s = pre ++ rest /\ here rest = Some g.
Proof.
  unfold occurs. split.
  - intros (l & post & Hl & Hid & ->). exists (l ++ g ++ post).
    split; [reflexivity|]. apply here_spec. now exists l, post.
  - intros (rest & -> & Hg). apply here_spec in Hg as (l & post & Hl & Hid & ->).
    now exists l, post.
Qed.

Lemma search_first (s g : str) :
  search ns s = Some g <-> first_occurrence lead s g.
Proof.
  unfold search, first_occurrence. rewrite search_from_some. split.
  - intros (pre & rest & Hs & Hg & Hmin). exists pre. split.
    + apply occurs_here. now exists rest.
    + intros pre' g' Ho. apply occurs_here in Ho as (rest' & Hs' & Hg').
      destruct (Nat.le_gt_cases (List.length pre) (List.length pre'))
        as [Hle | Hlt]; [assumption|].
      rewrite (Hmin pre' rest' Hs' Hlt) in Hg'. discriminate.
  - intros (pre & Ho & Hmin). apply occurs_here in Ho as (rest & Hs & Hg).
    exists pre, rest. repeat split; auto. intros pre' rest' Hs' Hlt.
    destruct (here rest') as [g'|] eqn:E; [|reflexivity].
    assert (Ho : occurs lead s pre' g') by (apply occurs_here; now exists rest').
    apply Hmin in Ho. lia.
Qed.

Lemma search_absent (s : str) : search ns s = None <-> absent lead s.
Proof.
  unfold search, absent. rewrite search_from_none. split.
  - intros H pre g Ho. apply occurs_here in Ho as (rest & Hs & Hg).
    rewrite (H pre rest Hs) in Hg. discriminate.
  - intros H pre rest Hs. destruct (here rest) as [g|] eqn:E; [|reflexivity].
    exfalso. apply (H pre g). apply occurs_here. now exists rest.
Qed.

End Search.

Module BareFacts.
Import Re Direct ReFacts PatternFacts Shape.

Lemma search_caret (ns : list node) (s : str) :
  search_from (Caret :: ns) false s = None.
Proof. induction s as [|x s IH]; cbn [search_from match_here]; auto. Qed.

Lemma search_bare (s : str) : search pattern_bare s = bare_here s.
Proof.
  unfold search, pattern_bare, bare_here.
  destruct s as [|x s]; cbn [search_from]; cbn [match_here];
    rewrite match_id_group_dollar.
  - reflexivity.
  - rewrite search_caret.
    destruct (id_prefix (x :: s)); [|reflexivity].
    destruct (skipn 11 (x :: s)) as [|c [|d r]]; try reflexivity.
    now destruct (N.eqb c 10).
Qed.

Lemma bare_here_spec (s g : str) :
  bare_here s = Some g <-> identifier g /\ whole_line s g.
Proof.
  unfold bare_here, whole_line. split.
  - destruct (id_prefix s) as [g0|] eqn:E; [|discriminate].
    apply id_prefix_spec in E as [Hid [post ->]].
    assert (Hk : skipn 11 (g0 ++ post) = post).
    { destruct Hid as [Hlen _]. rewrite <- Hlen.
      rewrite skipn_app, Nat.sub_diag, skipn_all. reflexivity. }
    rewrite Hk. destruct post as [|c [|d r]]; try discriminate.
    + intros [= <-]. rewrite app_nil_r. auto.
    + destruct (N.eqb c 10) eqn:Ec; [|discriminate].
      apply N.eqb_eq in Ec. subst c. intros [= <-]. auto.
  - intros [Hid Hs].
    assert (Hp : forall post, id_prefix (g ++ post) = Some g).
    { intros post. apply id_prefix_spec. split; [assumption | now exists post]. }
    assert (Hk : forall post, skipn 11 (g ++ post) = post).
    { intros post. destruct Hid as [Hlen _]. rewrite <- Hlen.
      rewrite skipn_app, Nat.sub_diag, skipn_all. reflexivity. }
    destruct Hs as [-> | ->].
    + specialize (Hp []). specialize (Hk []). rewrite app_nil_r in Hp, Hk.
      now rewrite Hp, Hk.
    + now rewrite Hp, Hk, N.eqb_refl.
Qed.

End BareFacts.

(** ** The Identifier Normalizer *)

Module Normalizer.
Import Re Direct ReFacts PatternFacts BareFacts Shape.

Lemma search_query (s g : str) :
  search pattern_query s = Some g <-> first_occurrence query_lead s g.
Proof. eapply search_first; [apply match_query | apply query_here_spec]. Qed.

Lemma search_query_none (s : str) :
  search pattern_query s = None <-> absent query_lead s.
Proof. eapply search_absent; [apply match_query | apply query_here_spec]. Qed.

Lemma search_short (s g : str) :
  search pattern_short s = Some g <-> first_occurrence short_lead s g.
Proof. eapply search_first; [apply match_short | apply short_here_spec]. Qed.

Lemma search_short_none (s : str) :
  search pattern_short s = None <-> absent short_lead s.
Proof. eapply search_absent; [apply match_short | apply short_here_spec]. Qed.

Lemma extract_video_id_unfold (url : str) :
  extract_video_id url =
  match search pattern_query url with
  | Some g => g
  | None =>
      match search pattern_short url with
      | Some g => g
      | None =>
          match search pattern_bare url with
          | Some g => g
          | None => url
          end
      end
  end.
Proof.
  unfold extract_video_id. rewrite patterns_eq. cbn [first_match].
  destruct (search pattern_query url); [reflexivity|].
  destruct (search pattern_short url); [reflexivity|].
  destruct (search pattern_bare url); reflexivity.
Qed.

Lemma extract_normalizes (s : str) : normalizes whole_line s (extract_video_id s).
Proof.
  rewrite extract_video_id_unfold.
  destruct (search pattern_query s) as [g|] eqn:Eq.
  { apply by_query. now apply search_query. }
  apply search_query_none in Eq.
  destruct (search pattern_short s) as [g|] eqn:Es.
  { apply by_short; [assumption | now apply search_short]. }
  apply search_short_none in Es.
  rewrite search_bare. destruct (bare_here s) as [g|] eqn:Eb.
  - apply bare_here_spec in Eb as [Hid Hw]. now apply by_bare.
  - apply unchanged; try assumption. intros g Hid Hw.
    assert (H : bare_here s = Some g) by (now apply bare_here_spec).
    congruence.
Qed.

Lemma normalizes_extract (s r : str) :
  normalizes whole_line s r -> r = extract_video_id s.
Proof.
  rewrite extract_video_id_unfold. intros H. destruct H as [g H|g Ha H|g Ha Hb Hid Hw|Ha Hb Hn].
  - apply search_query in H. now rewrite H.
  - apply search_query_none in Ha. apply search_short in H. now rewrite Ha, H.
  - apply search_query_none in Ha. apply search_short_none in Hb.
    rewrite Ha, Hb, search_bare.
    assert (H : bare_here s = Some g) by (now apply bare_here_spec).
    now rewrite H.
  - apply search_query_none in Ha. apply search_short_none in Hb.
    rewrite Ha, Hb, search_bare.
    destruct (bare_here s) as [g|] eqn:Eb; [|reflexivity].
    apply bare_here_spec in Eb as [Hid Hw]. now destruct (Hn g Hid).
Qed.

(** C1, as amended. For every input, [extract_video_id] returns: the
    eleven identifier characters after the leftmost [?v=] or [&v=] that
    is followed by eleven identifier characters; failing that, those
    after the leftmost such [youtu.be/]; failing that, the input
    without its final newline when the input is eleven identifier
    characters, alone or followed by one newline; and the input
    unchanged otherwise. Nothing else is a result. *)
Theorem extract_video_id_spec (s r : str) :
  normalizes whole_line s r <-> r = extract_video_id s.
Proof.
  split.
  - apply normalizes_extract.
  - intros ->. apply extract_normalizes.
Qed.

(** C1, as stated, fails: an identifier followed by a newline matches
    none of the three shapes as the claim words them (the whole input
    has twelve characters), yet the result is not the input. *)
Lemma extract_video_id_newline :
  let s := py "dQw4w9WgXcQ" ++ [10%N] in
  extract_video_id s = py "dQw4w9WgXcQ" /\
  ~ normalizes whole s (extract_video_id s).
Proof.
  cbv zeta. split; [reflexivity|].
  change (extract_video_id (py "dQw4w9WgXcQ" ++ [10%N])) with (py "dQw4w9WgXcQ").
  intros H. inversion H as [g Hq|g Ha Hs|g Ha Hb Hid Hw|Ha Hb Hn]; subst.
  - apply search_query in Hq. vm_compute in Hq. discriminate.
  - apply search_short in Hs. vm_compute in Hs. discriminate.
  - unfold whole in Hw. vm_compute in Hw. discriminate.
Qed.

(** The quantifier [{11}] takes eleven identifier characters and
    leaves what follows them, identifier characters included. *)
Example extract_long_parameter :
  extract_video_id (py "https://www.youtube.com/watch?v=dQw4w9WgXcQabc")
  = py "dQw4w9WgXcQ".
Proof. reflexivity. Qed.

End Normalizer.

(** ** [str.join] *)

Module JoinFacts.

Lemma join_from_strings (sep : str) (l : list str) : forall i,
  join_from i sep (map JStr l) = Ok (joined sep l).
Proof.
  induction l as [|s rest IH]; intros i; [reflexivity|].
  cbn [map join_from joined]. destruct rest as [|s' rest]; [reflexivity|].
  cbn [map] in *. now rewrite IH.
Qed.

Lemma join_from_cons (sep s : str) (rest : list json) (i : nat) :
  rest <> [] ->
  join_from i sep (JStr s :: rest)
  = (t <~ join_from (S i) sep rest ;; Ok (s ++ sep ++ t)).
Proof. destruct rest; [congruence | reflexivity]. Qed.

Lemma join_from_stops (sep : str) (pre : list str) (x : json) (rest : list json) :
  (forall s, x <> JStr s) ->
  forall i, join_from i sep (map JStr pre ++ x :: rest)
            = Err (TypeError (OpJoinItem (i + List.length pre)) (type_of x)).
Proof.
  intros Hx. induction pre as [|s pre IH]; intros i.
  - cbn [map app List.length join_from]. rewrite Nat.add_0_r.
    destruct x; try reflexivity. now destruct (Hx s).
  - cbn [map app List.length]. rewrite join_from_cons by (now destruct pre).
    rewrite IH. cbn [rbind]. f_equal. f_equal. f_equal. lia.
Qed.

(** A list of optional strings is all strings, or has a first [None]. *)
Lemma first_none (l : list (option str)) :
  (exists ss, l = map Some ss) \/
  (exists pre rest, l = map Some pre ++ None :: rest).
Proof.
  induction l as [|o l [[ss ->] | (pre & rest & ->)]].
  - left. now exists [].
  - destruct o as [s|].
    + left. now exists (s :: ss).
    + right. now exists [], (map Some ss).
  - destruct o as [s|].
    + right. now exists (s :: pre), rest.
    + right. now exists [], (map Some pre ++ None :: rest).
Qed.

Lemma join_texts_unfold (root : Element) :
  join_texts root = join_from 0 (py " ") (map of_text (texts root)).
Proof.
  unfold join_texts, str_join, texts. cbn [iterate rbind].
  now rewrite map_map.
Qed.

Lemma join_texts_strings (root : Element) (l : list str) :
  texts root = map Some l -> join_texts root = Ok (joined (py " ") l).
Proof.
  intros H. rewrite join_texts_unfold, H, map_map. cbn [of_text].
  apply join_from_strings.
Qed.

Lemma join_texts_none (root : Element) (pre : list str) (rest : list (option str)) :
  texts root = map Some pre ++ None :: rest ->
  join_texts root = Err (TypeError (OpJoinItem (List.length pre)) NoneType).
Proof.
  intros H. rewrite join_texts_unfold, H, map_app, map_map. cbn [map of_text].
  apply (join_from_stops (py " ") pre (x:=JNull)). discriminate.
Qed.

End JoinFacts.

(** ** The elements [findall] returns *)

Module TreeFacts.
Import Tree.

Lemma iter_unfold (t : str) (e : Element) :
  iter t e = (if str_eqb (tag e) t then [e] else []) ++
             flat_map (iter t) (children e).
Proof. now destruct e. Qed.

Lemma iter_paths_unfold (t : str) (e : Element) :
  iter_paths t e = (if str_eqb (tag e) t then [[]] else []) ++
                   forest_paths t 0 (children e).
Proof.
  destruct e as [t' a x tl cs]. cbn [iter_paths tag children]. f_equal.
  generalize 0%nat. induction cs as [|c cs IH]; intros i; [reflexivity|].
  cbn [forest_paths]. now rewrite IH.
Qed.

Lemma subelement_cons (e : Element) (j : nat) (q : list nat) :
  subelement e (j :: q) = sub_in (children e) (j :: q).
Proof. reflexivity. Qed.

(** *** Document order *)

Lemma before_irrefl (p : list nat) : ~ before p p.
Proof.
  induction p as [|i p IH]; cbn; [tauto|]. intros [H | [_ H]]; [lia | tauto].
Qed.

Lemma before_asym (p : list nat) : forall q, before p q -> before q p -> False.
Proof.
  induction p as [|i p IH]; intros [|j q]; cbn; try tauto.
  intros [H1 | [-> H1]] [H2 | [H2 H3]]; try lia. eapply IH; eassumption.
Qed.

Lemma increasing_app (a b : list (list nat)) :
  increasing a -> increasing b ->
  (forall x y, In x a -> In y b -> before x y) ->
  increasing (a ++ b).
Proof.
  induction a as [|p a IH]; intros Ha Hb Hab; [assumption|].
  destruct Ha as [Hp Ha]. cbn. split.
  - apply Forall_app. split; [assumption|].
    apply Forall_forall. intros y Hy. apply Hab; [now left | assumption].
  - apply IH; try assumption. intros x y Hx Hy. apply Hab; [now right | assumption].
Qed.

Lemma increasing_cons (i : nat) (ps : list (list nat)) :
  increasing ps -> increasing (map (cons i) ps).
Proof.
  induction ps as [|p ps IH]; [trivial|]. intros [Hp Hps]. cbn. split.
  - apply Forall_forall. intros y Hy. apply in_map_iff in Hy as (q & <- & Hq).
    right. split; [reflexivity|]. rewrite Forall_forall in Hp. now apply Hp.
  - now apply IH.
Qed.

(** Two increasing lists with the same members are the same list. *)
Lemma increasing_unique (a : list (list nat)) : forall b,
  increasing a -> increasing b -> (forall p, In p a <-> In p b) -> a = b.
Proof.
  induction a as [|p a IH]; intros [|q b] Ha Hb Hab.
  - reflexivity.
  - destruct (proj2 (Hab q) (or_introl eq_refl)).
  - destruct (proj1 (Hab p) (or_introl eq_refl)).
  - destruct Ha as [Hp Ha], Hb as [Hq Hb].
    rewrite Forall_forall in Hp, Hq.
    assert (Epq : p = q).
    { destruct (proj1 (Hab p) (or_introl eq_refl)) as [E | Hin]; [now symmetry|].
      destruct (proj2 (Hab q) (or_introl eq_refl)) as [E | Hin']; [assumption|].
      exfalso. apply (before_asym p q); [now apply Hp | now apply Hq]. }
    subst q. f_equal. apply IH; try assumption. intros x. split; intros Hx.
    + destruct (proj1 (Hab x) (or_intror Hx)) as [E | Hin]; [|assumption].
      subst x. exfalso. apply (before_irrefl p). now apply Hp.
    + destruct (proj2 (Hab x) (or_intror Hx)) as [E | Hin]; [|assumption].
      subst x. exfalso. apply (before_irrefl p). now apply Hq.
Qed.

Lemma map_Some_inj {A} (a b : list A) : map Some a = map Some b -> a = b.
Proof.
  revert b. induction a as [|x a IH]; intros [|y b]; try discriminate.
  - reflexivity.
  - cbn. intros [= -> H]. f_equal. now apply IH.
Qed.

(** *** The paths of [iter] *)

Section Tag.

Variable t : str.

Local Abbreviation sound := (sound t).

Lemma forest_sound (l : list Element) :
  Forall sound l ->
  forall pre : list Element,
    map (sub_in (pre ++ l)) (forest_paths t (List.length pre) l)
    = map Some (flat_map (iter t) l) /\
    increasing (forest_paths t (List.length pre) l) /\
    forall p, In p (forest_paths t (List.length pre) l) <->
              exists j q e', p = j :: q /\ (List.length pre <= j)%nat /\
                             sub_in (pre ++ l) p = Some e' /\ tag e' = t.
Proof.
  induction 1 as [|c l [HA [HB HC]] _ IH]; intros pre.
  - cbn. split; [reflexivity|]. split; [exact I|]. intros p. split; [tauto|].
    intros (j & q & e' & -> & Hj & Hs & _). exfalso. cbn in Hs.
    rewrite app_nil_r in Hs.
    assert (Hn : nth_error pre j = None) by (apply nth_error_None; lia).
    rewrite Hn in Hs. discriminate.
  - specialize (IH (pre ++ [c])).
    rewrite <- app_assoc, length_app in IH. cbn [app List.length] in IH.
    rewrite Nat.add_1_r in IH. destruct IH as (IA & IB & IC).
    assert (Hc : nth_error (pre ++ c :: l) (List.length pre) = Some c).
    { rewrite nth_error_app2, Nat.sub_diag by lia. reflexivity. }
    cbn [forest_paths flat_map]. split; [|split].
    + rewrite !map_app, IA. f_equal. rewrite map_map.
      rewrite <- HA. apply map_ext. intros q. cbn [sub_in]. now rewrite Hc.
    + apply increasing_app; [now apply increasing_cons | assumption |].
      intros x y Hx Hy. apply in_map_iff in Hx as (q & <- & _).
      apply IC in Hy as (j & q' & _ & -> & Hj & _). left. lia.
    + intros p. rewrite in_app_iff, IC, in_map_iff. split.
      * intros [(q & <- & Hq) | (j & q & e' & -> & Hj & Hs & Ht)].
        -- apply HC in Hq as (e' & Hs & Ht).
           exists (List.length pre), q, e'. split; [reflexivity|].
           split; [lia|]. split; [|assumption]. cbn [sub_in]. now rewrite Hc.
        -- exists j, q, e'. split; [reflexivity|]. split; [lia|]. now split.
      * intros (j & q & e' & -> & Hj & Hs & Ht).
        destruct (Nat.eq_dec j (List.length pre)) as [-> | Hne].
        -- left. exists q. split; [reflexivity|]. apply HC. exists e'.
           cbn [sub_in] in Hs. rewrite Hc in Hs. now split.
        -- right. exists j, q, e'. split; [reflexivity|]. split; [lia|]. now split.
Qed.

Lemma forest_heads (l : list Element) : forall i p,
  In p (forest_paths t i l) -> exists j q, p = j :: q.
Proof.
  induction l as [|c l IH]; intros i p; [intros []|].
  cbn [forest_paths]. rewrite in_app_iff, in_map_iff.
  intros [(q & <- & _) | H]; [eauto | eapply IH, H].
Qed.

Lemma iter_sound (e : Element) : sound e.
Proof.
  induction e as [t' a x tl cs Hcs] using Element_induction.
  destruct (forest_sound Hcs []) as (FA & FB & FC).
  cbn [app List.length] in FA, FB, FC.
  set (e := mkElement t' a x tl cs) in *.
  unfold sound. rewrite iter_paths_unfold, iter_unfold.
  change (children e) with cs. split; [|split].
  - rewrite !map_app. f_equal; [now destruct (str_eqb (tag e) t)|].
    rewrite <- FA. apply map_ext_in. intros p Hp.
    apply forest_heads in Hp as (j & q & ->). reflexivity.
  - apply increasing_app; [destruct (str_eqb (tag e) t); cbn; auto | assumption |].
    intros p q Hp Hq. apply forest_heads in Hq as (j & q' & ->).
    destruct (str_eqb (tag e) t); [|destruct Hp].
    destruct Hp as [<- | []]. exact I.
  - intros p. rewrite in_app_iff, FC. split.
    + intros [Hp | (j & q & e' & -> & _ & Hs & Ht)].
      * destruct (str_eqb (tag e) t) eqn:Et; [|destruct Hp].
        destruct Hp as [<- | []]. exists e. split; [reflexivity|].
        now apply str_eqb_eq.
      * exists e'. now split.
    + intros (e' & Hs & Ht). destruct p as [|j q].
      * left. cbn in Hs. injection Hs as <-.
        apply str_eqb_eq in Ht. rewrite Ht. now left.
      * right. exists j, q, e'. split; [reflexivity|]. split; [lia|]. now split.
Qed.

(** [findall('.//' + t)] returns the elements tagged [t] strictly below
    the root, each once, in document order. *)
Lemma findall_matched (root : Element) :
  matched_below t root (findall_descendants t root).
Proof.
  assert (Hcs : Forall sound (children root))
    by (apply Forall_forall; intros c _; apply iter_sound).
  destruct (forest_sound Hcs []) as (FA & FB & FC).
  cbn [app List.length] in FA, FB, FC.
  exists (forest_paths t 0 (children root)). split; [assumption|]. split.
  - intros p. rewrite FC. split.
    + intros (j & q & e' & -> & _ & Hs & Ht). split; [discriminate|].
      exists e'. now split.
    + intros (Hne & e' & Hs & Ht). destruct p as [|j q]; [contradiction|].
      exists j, q, e'. split; [reflexivity|]. split; [lia|]. now split.
  - unfold findall_descendants. rewrite <- FA. apply map_ext_in.
    intros p Hp. apply forest_heads in Hp as (j & q & ->). reflexivity.
Qed.

(** Nothing else is. *)
Lemma matched_unique (root : Element) (es : list Element) :
  matched_below t root es -> es = findall_descendants t root.
Proof.
  intros (ps & Hi & Hm & He).
  destruct (findall_matched root) as (ps' & Hi' & Hm' & He').
  assert (E : ps = ps').
  { apply increasing_unique; try assumption. intros p. now rewrite Hm, Hm'. }
  subst ps'. apply map_Some_inj. now rewrite <- He, <- He'.
Qed.

End Tag.

End TreeFacts.

(** ** The pipeline, step by step *)

Section PipelineFacts.

Variable run : list str -> Z -> run_outcome.
Variable json_loads : str -> loads_outcome.
Variable ET_fromstring : str -> option Element.
Variable describe : exn -> str.
Variable lax_str : json -> option str.
Variable lax_int : json -> option Z.

Local Abbreviation fetch := (fetch_transcript run ET_fromstring).
Local Abbreviation captions := (caption_stage run ET_fromstring).
Local Abbreviation extraction := (get_yt_dlp_data run json_loads ET_fromstring describe).
Local Abbreviation extraction_body := (get_yt_dlp_data_body run json_loads ET_fromstring).
Local Abbreviation response := (success_response lax_str lax_int).
Local Abbreviation post :=
  (get_transcript run json_loads ET_fromstring describe lax_str lax_int).
Local Abbreviation get :=
  (get_transcript_get run json_loads ET_fromstring describe lax_str lax_int).
Local Abbreviation extracted := (extracted run json_loads).

Lemma fetch_done (kind : str) (data : json) (u : str) (p : CompletedProcess)
      (root : Element) (tr : list call) :
  track_url kind data = Ok (JStr u) ->
  run [py "curl"; py "-s"; u] 30 = Completed p ->
  ET_fromstring (stdout p) = Some root ->
  fetch kind data tr = (join_texts root, tr ++ [curl u]).
Proof.
  intros Hu Hr Hx. unfold fetch_transcript, bind, lift, subprocess_run, fromstring.
  rewrite Hu. cbn [argument]. rewrite Hr, Hx.
  unfold curl. now destruct (join_texts root).
Qed.

Lemma fetch_timeout (kind : str) (data : json) (u : str) (tr : list call) :
  track_url kind data = Ok (JStr u) ->
  run [py "curl"; py "-s"; u] 30 = TimedOut ->
  fetch kind data tr
  = (Err (TimeoutExpired [py "curl"; py "-s"; u] 30), tr ++ [curl u]).
Proof.
  intros Hu Hr. unfold fetch_transcript, bind, lift, subprocess_run.
  rewrite Hu. cbn [argument]. now rewrite Hr.
Qed.

Lemma captions_selected (data : json) (kind : str) (tr : list call) :
  selected data kind -> captions data tr = fetch kind data tr.
Proof.
  intros [Hm | Hm Ha]; unfold caption_stage, bind, lift; rewrite Hm.
  - reflexivity.
  - now rewrite Ha.
Qed.

Lemma captions_none (data : json) (tr : list call) :
  has_track (py "subtitles") data = Ok false ->
  has_track (py "automatic_captions") data = Ok false ->
  captions data tr = (Ok [], tr).
Proof.
  intros Hm Ha. unfold caption_stage, bind, lift, ret. now rewrite Hm, Ha.
Qed.

Lemma body_extracted (video_id : str) (data : json) (tr : list call) :
  extracted video_id data ->
  extraction_body video_id tr
  = (transcript <- captions data ;; lift (assemble video_id data transcript))
      (tr ++ [tool video_id]).
Proof.
  intros (p & Hr & Hc & Hd).
  unfold get_yt_dlp_data_body, subprocess_run, loads.
  unfold bind at 1. rewrite Hr, Hc. cbn [Z.eqb negb].
  unfold bind at 1. unfold lift at 1. now rewrite Hd.
Qed.

(** Whatever happens inside [get_yt_dlp_data], what leaves it is a
    plain [Exception]. *)
Lemma extraction_raises (video_id : str) (tr tr' : list call) (e : exn) :
  extraction video_id tr = (Err e, tr') -> exists msg, e = Exception msg.
Proof.
  unfold get_yt_dlp_data, try_except.
  destruct (extraction_body video_id tr) as [[d|e0] tr0]; [discriminate|].
  destruct e0; cbn [get_yt_dlp_data_handler]; unfold raise;
    intros [= <- _]; eauto.
Qed.

Lemma extraction_of_body (video_id : str) (tr : list call) :
  extraction video_id tr =
  match extraction_body video_id tr with
  | (Ok d, tr') => (Ok d, tr')
  | (Err (TimeoutExpired _ _), tr') => (Err (Exception (py "Request timeout")), tr')
  | (Err (JSONDecodeError _), tr') =>
      (Err (Exception (py "Invalid JSON response from yt-dlp")), tr')
  | (Err e, tr') => (Err (Exception (py "Error: " ++ str_of describe e)), tr')
  end.
Proof.
  unfold get_yt_dlp_data, try_except.
  destruct (extraction_body video_id tr) as [[d|e] tr']; [reflexivity|].
  now destruct e.
Qed.

(** The handler once the identifier has eleven characters. *)
Lemma post_valid (raw : str) (tr : list call) :
  List.length (extract_video_id raw) = 11%nat ->
  post {| video_id := raw |} tr =
  match extraction (extract_video_id raw) tr with
  | (Ok d, tr') =>
      match response (extract_video_id raw) d with
      | Ok r => (Ok r, tr')
      | Err e => (Ok (failure_response raw (str_of describe e)), tr')
      end
  | (Err e, tr') => (Ok (failure_response raw (str_of describe e)), tr')
  end.
Proof.
  intros Hlen. unfold get_transcript, try_except. cbn [video_id].
  rewrite Hlen. cbn [Nat.eqb negb]. unfold bind, lift.
  destruct (extraction (extract_video_id raw) tr) as [[d|e] tr'] eqn:E.
  - unfold success_response.
    destruct (_ <~~ as_str lax_str (VideoData.videoTitle d) ;; _); reflexivity.
  - apply extraction_raises in E as [msg ->]. reflexivity.
Qed.

Lemma post_failure (raw msg : str) (tr tr' : list call) :
  List.length (extract_video_id raw) = 11%nat ->
  extraction (extract_video_id raw) tr = (Err (Exception msg), tr') ->
  post {| video_id := raw |} tr = (Ok (failure_response raw msg), tr').
Proof. intros Hlen He. now rewrite post_valid, He. Qed.

Lemma assemble_keeps (video_id : str) (data : json) (t : str) (d : VideoData.t) :
  assemble video_id data t = Ok d ->
  VideoData.videoId d = video_id /\ VideoData.transcript d = t /\
  VideoData.length d = Z.of_nat (List.length t).
Proof.
  unfold assemble, rbind.
  repeat (match goal with
          | |- context [match ?x with Ok _ => _ | Err _ => _ end] => destruct x
          end; try discriminate).
  intros [= <-]. auto.
Qed.

Lemma response_keeps (video_id : str) (d : VideoData.t) (r : TranscriptResponse.t) :
  response video_id d = Ok r ->
  TranscriptResponse.success r = true /\
  TranscriptResponse.videoId r = video_id /\
  TranscriptResponse.tags r = Some (VideoData.tags d) /\
  TranscriptResponse.categories r = Some (VideoData.categories d) /\
  TranscriptResponse.transcript r = Some (VideoData.transcript d) /\
  TranscriptResponse.length r = Some (VideoData.length d) /\
  TranscriptResponse.error r = None.
Proof.
  unfold success_response, obind.
  repeat (match goal with
          | |- context [match ?x with Some _ => _ | None => _ end] =>
              lazymatch x with
              | as_str _ _ => destruct x
              | as_int _ _ => destruct x
              end
          end; try discriminate).
  intros [= <-]. cbn. repeat split.
Qed.

Lemma join_field (m : list (str * json)) (key : string) (sep : str) (l : list str) :
  string_list m key l ->
  str_join sep (field_or m key (JArr [])) = Ok (joined sep l).
Proof.
  unfold string_list, field_or. destruct (lookup (py key) m) as [v|].
  - intros ->. unfold str_join. cbn [iterate rbind].
    apply JoinFacts.join_from_strings.
  - now intros ->.
Qed.

Lemma dict_get_field (m : list (str * json)) (key : string) (default : json) :
  dict_get (JObj m) (py key) default = Ok (field_or m key default).
Proof. unfold dict_get, field_or. now destruct (lookup (py key) m). Qed.

(** ** The request handlers *)

Lemma post_invalid (raw : str) (tr : list call) :
  List.length (extract_video_id raw) <> 11%nat ->
  exists detail,
    post {| video_id := raw |} tr = (Err (HTTPException 400 detail), tr).
Proof.
  intros Hlen. eexists. unfold get_transcript, try_except. cbn [video_id].
  apply Nat.eqb_neq in Hlen. rewrite Hlen. reflexivity.
Qed.

(** C2. When the normalized identifier does not have exactly eleven
    characters, the body handler and the query handler both raise an
    HTTPException with status 400 and the message
    [Invalid video_id: <identifier>. Must be 11 characters.]; no
    subprocess is started, and what is sent is the 400 error, not a
    response body. *)
Theorem invalid_identifier_400 (raw : str) (tr : list call) :
  List.length (extract_video_id raw) <> 11%nat ->
  let detail :=
    py "Invalid video_id: " ++ extract_video_id raw ++
    py ". Must be 11 characters." in
  post {| video_id := raw |} tr = (Err (HTTPException 400 detail), tr) /\
  get raw tr = (Err (HTTPException 400 detail), tr) /\
  respond (fst (post {| video_id := raw |} tr)) = Problem 400 detail /\
  respond (fst (get raw tr)) = Problem 400 detail.
Proof.
  intros Hlen detail.
  assert (H : post {| video_id := raw |} tr = (Err (HTTPException 400 detail), tr)).
  { unfold get_transcript, try_except. cbn [video_id].
    apply Nat.eqb_neq in Hlen. rewrite Hlen. reflexivity. }
  unfold get_transcript_get. rewrite H. repeat split.
Qed.

(** ** The caption stage *)

Lemma english_has_track (m : list (str * json)) (kind : string) (u : str) :
  Tracks.english_track m kind u -> has_track (py kind) (JObj m) = Ok true.
Proof.
  intros (tracks & first & rest & Hk & He & _).
  unfold has_track, contains, getitem. rewrite Hk. cbn [rbind]. now rewrite He.
Qed.

Lemma english_track_url (m : list (str * json)) (kind : string) (u : str) :
  Tracks.english_track m kind u -> track_url (py kind) (JObj m) = Ok (JStr u).
Proof.
  intros (tracks & first & rest & Hk & He & Hu).
  unfold track_url, getitem. rewrite Hk. cbn [rbind]. rewrite He.
  cbn [rbind getitem0]. now rewrite Hu.
Qed.

Lemma no_english_has_track (m : list (str * json)) (kind : string) :
  Tracks.no_english_track m kind -> has_track (py kind) (JObj m) = Ok false.
Proof.
  unfold has_track, contains, getitem.
  intros [Hk | (tracks & Hk & He)]; rewrite Hk; cbn [rbind];
    [reflexivity | now rewrite He].
Qed.

Lemma fetch_at (kind : str) (data : json) (u : str) (tr : list call) :
  track_url kind data = Ok (JStr u) ->
  fetch kind data tr
  = (Tracks.transcript_at run ET_fromstring u, tr ++ [curl u]).
Proof.
  intros Hu.
  unfold fetch_transcript, bind, lift, subprocess_run, fromstring, curl,
    Tracks.transcript_at.
  rewrite Hu. cbn [argument].
  destruct (run [py "curl"; py "-s"; u] 30) as [p| |text]; try reflexivity.
  destruct (ET_fromstring (stdout p)) as [root|]; [|reflexivity].
  now destruct (join_texts root).
Qed.

Lemma captions_at (m : list (str * json)) (u : str) (tr : list call) :
  Tracks.caption_address m u ->
  captions (JObj m) tr
  = (Tracks.transcript_at run ET_fromstring u, tr ++ [curl u]).
Proof.
  intros [Hm | [Hn Ha]].
  - rewrite captions_selected with (kind := py "subtitles").
    + apply fetch_at. now apply english_track_url.
    + constructor. now apply english_has_track with (u := u).
  - rewrite captions_selected with (kind := py "automatic_captions").
    + apply fetch_at. now apply english_track_url.
    + constructor; [now apply no_english_has_track|].
      now apply english_has_track with (u := u).
Qed.

(** C3. The caption stage looks at the manual English track first:
    when ['en'] is in [data['subtitles']], the address it fetches is
    the first one that track lists, and the transcript is read from
    what that address holds, whatever [data['automatic_captions']]
    holds; otherwise, when ['en'] is in [data['automatic_captions']],
    it fetches the first address of that track; and when neither is
    there the transcript is the empty string, of length 0, and no
    subprocess is started: after such an extraction the only subprocess
    of the request is the extraction tool. *)
Theorem caption_priority (m : list (str * json)) (tr : list call) :
  (forall u,
     Tracks.english_track m "subtitles" u ->
     captions (JObj m) tr
     = (Tracks.transcript_at run ET_fromstring u, tr ++ [curl u])) /\
  (forall u,
     Tracks.no_english_track m "subtitles" ->
     Tracks.english_track m "automatic_captions" u ->
     captions (JObj m) tr
     = (Tracks.transcript_at run ET_fromstring u, tr ++ [curl u])) /\
  (Tracks.no_english_track m "subtitles" ->
   Tracks.no_english_track m "automatic_captions" ->
   captions (JObj m) tr = (Ok [], tr) /\
   forall video_id,
     extracted video_id (JObj m) ->
     snd (extraction video_id tr) = tr ++ [tool video_id] /\
     forall d, fst (extraction video_id tr) = Ok d ->
               VideoData.transcript d = [] /\ VideoData.length d = 0%Z).
Proof.
  split; [|split].
  - intros u Hm. apply captions_at. now left.
  - intros u Hn Ha. apply captions_at. right. now split.
  - intros Hn Ha.
    apply no_english_has_track in Hn, Ha.
    split; [now apply captions_none|].
    intros video_id Hx. rewrite extraction_of_body.
    rewrite body_extracted with (data := JObj m) by assumption.
    unfold bind. rewrite captions_none by assumption. unfold lift.
    destruct (assemble video_id (JObj m) []) as [d|e] eqn:E.
    + split; [reflexivity|]. cbn [fst]. intros d' [= <-].
      apply assemble_keeps in E as (_ & Ht & Hl). now split.
    + split; [now destruct e | now destruct e].
Qed.

(** C4, as amended. When a caption track is found and its document
    fetched and parsed, the elements that count are those tagged [text]
    strictly below the root, in document order, and of each its [text],
    what stands in it before its first child. When each of them has
    one, the transcript is these texts with one space between
    neighbours; the [length] of the assembled record, and of the
    response built from it, is the number of characters of that
    string. *)
Theorem transcript_joined (m : list (str * json)) (u : str)
        (p : CompletedProcess) (root : Element) (es : list Element)
        (cues : list str) (tr : list call) :
  Tracks.caption_address m u ->
  run [py "curl"; py "-s"; u] 30 = Completed p ->
  ET_fromstring (stdout p) = Some root ->
  Tree.matched_below (py "text") root es ->
  map text es = map Some cues ->
  let transcript := joined (py " ") cues in
  captions (JObj m) tr = (Ok transcript, tr ++ [curl u]) /\
  forall video_id d,
    assemble video_id (JObj m) transcript = Ok d ->
    VideoData.transcript d = transcript /\
    VideoData.length d = Z.of_nat (List.length transcript) /\
    forall r, response video_id d = Ok r ->
      TranscriptResponse.transcript r = Some transcript /\
      TranscriptResponse.length r = Some (Z.of_nat (List.length transcript)).
Proof.
  intros Ha Hr Hx Hm Ht transcript. split.
  - rewrite captions_at with (u := u) by assumption.
    unfold Tracks.transcript_at. rewrite Hr, Hx.
    apply TreeFacts.matched_unique in Hm. subst es.
    now rewrite JoinFacts.join_texts_strings with (l := cues).
  - intros video_id d Hd. apply assemble_keeps in Hd as (_ & Hd1 & Hd2).
    split; [assumption|]. split; [assumption|]. intros r Hresp.
    apply response_keeps in Hresp as (_ & _ & _ & _ & H1 & H2 & _).
    split; congruence.
Qed.

(** ** The response assembler *)

(** C5. The assembler is a function of the record, the identifier and
    the transcript alone. Each of title, channel, channel URL,
    description, upload date and thumbnail is the record's value, the
    empty string when the key is absent; duration, view count and like
    count are the record's value, 0 when absent; tags and categories,
    absent or lists of strings, are the strings joined with [", "], the
    empty string for an absent or empty list. *)
Theorem assemble_defaults (video_id : str) (m : list (str * json))
        (transcript : str) (tags categories : list str) :
  string_list m "tags" tags ->
  string_list m "categories" categories ->
  assemble video_id (JObj m) transcript =
  Ok (VideoData.mk
        (field_or m "title" (JStr []))
        video_id
        (field_or m "channel" (JStr []))
        (field_or m "channel_url" (JStr []))
        (field_or m "description" (JStr []))
        (field_or m "duration" (JInt 0))
        (field_or m "view_count" (JInt 0))
        (field_or m "like_count" (JInt 0))
        (field_or m "upload_date" (JStr []))
        (joined (py ", ") tags)
        (joined (py ", ") categories)
        (field_or m "thumbnail" (JStr []))
        transcript
        (Z.of_nat (List.length transcript))).
Proof.
  intros Ht Hc. unfold assemble.
  rewrite !dict_get_field. cbn [rbind].
  rewrite join_field with (l := tags) by assumption. cbn [rbind].
  rewrite join_field with (l := categories) by assumption. reflexivity.
Qed.

(** ** Failures of the pipeline *)

Lemma extraction_tool_timeout (video_id : str) (tr : list call) :
  run (yt_dlp_command video_id) 60 = TimedOut ->
  extraction video_id tr
  = (Err (Exception (py "Request timeout")), tr ++ [tool video_id]).
Proof.
  intros Hr. rewrite extraction_of_body.
  unfold get_yt_dlp_data_body, bind, subprocess_run. now rewrite Hr.
Qed.

Lemma extraction_fetch_timeout (video_id : str) (data : json) (kind u : str)
      (tr : list call) :
  extracted video_id data ->
  selected data kind ->
  track_url kind data = Ok (JStr u) ->
  run [py "curl"; py "-s"; u] 30 = TimedOut ->
  extraction video_id tr
  = (Err (Exception (py "Request timeout")), tr ++ [tool video_id; curl u]).
Proof.
  intros Hx Hs Hu Hr. rewrite extraction_of_body.
  rewrite body_extracted with (data := data) by assumption.
  unfold bind. rewrite captions_selected with (kind := kind) by assumption.
  rewrite fetch_timeout with (u := u) by assumption.
  now rewrite <- app_assoc.
Qed.

(** C6. When the extraction tool exceeds its 60 seconds, or the
    caption fetch its 30 seconds, either handler returns the failure
    response whose error is exactly [Request timeout], and it is sent
    with status 200. *)
Theorem timeout_reported (raw : str) (tr : list call) :
  List.length (extract_video_id raw) = 11%nat ->
  (run (yt_dlp_command (extract_video_id raw)) 60 = TimedOut \/
   exists data kind u,
     extracted (extract_video_id raw) data /\
     selected data kind /\
     track_url kind data = Ok (JStr u) /\
     run [py "curl"; py "-s"; u] 30 = TimedOut) ->
  let failure := failure_response raw (py "Request timeout") in
  TranscriptResponse.success failure = false /\
  TranscriptResponse.error failure = Some (py "Request timeout") /\
  fst (post {| video_id := raw |} tr) = Ok failure /\
  fst (get raw tr) = Ok failure /\
  respond (fst (post {| video_id := raw |} tr)) = Json 200 failure /\
  respond (fst (get raw tr)) = Json 200 failure.
Proof.
  intros Hlen Hto failure.
  assert (H : fst (post {| video_id := raw |} tr) = Ok failure).
  { destruct Hto as [Hr | (data & kind & u & Hx & Hs & Hu & Hr)].
    - erewrite post_failure; [reflexivity | assumption |].
      now apply extraction_tool_timeout.
    - erewrite post_failure; [reflexivity | assumption |].
      now apply extraction_fetch_timeout with (data := data) (kind := kind) (u := u). }
  unfold get_transcript_get. rewrite H. repeat split.
Qed.

(** C7, as amended. When the extraction tool exits with 0 and
    [json.loads] raises [JSONDecodeError] on its output, either handler
    returns the failure response whose error is exactly [Invalid JSON
    response from yt-dlp], sent with status 200. When [json.loads]
    fails on the output with another exception (a [ValueError], a
    [RecursionError]), the error is [Error: ] followed by the text of
    that exception. *)
Theorem invalid_json_reported (raw : str) (p : CompletedProcess) (tr : list call) :
  List.length (extract_video_id raw) = 11%nat ->
  run (yt_dlp_command (extract_video_id raw)) 60 = Completed p ->
  returncode p = 0%Z ->
  (json_loads (stdout p) = NotJSON ->
   let failure := failure_response raw (py "Invalid JSON response from yt-dlp") in
   TranscriptResponse.success failure = false /\
   TranscriptResponse.error failure
   = Some (py "Invalid JSON response from yt-dlp") /\
   post {| video_id := raw |} tr
   = (Ok failure, tr ++ [tool (extract_video_id raw)]) /\
   get raw tr = (Ok failure, tr ++ [tool (extract_video_id raw)]) /\
   respond (fst (post {| video_id := raw |} tr)) = Json 200 failure) /\
  (forall text,
     json_loads (stdout p) = LoadsError text ->
     let failure := failure_response raw (py "Error: " ++ text) in
     TranscriptResponse.success failure = false /\
     TranscriptResponse.error failure = Some (py "Error: " ++ text) /\
     post {| video_id := raw |} tr
     = (Ok failure, tr ++ [tool (extract_video_id raw)]) /\
     get raw tr = (Ok failure, tr ++ [tool (extract_video_id raw)]) /\
     respond (fst (post {| video_id := raw |} tr)) = Json 200 failure).
Proof.
  intros Hlen Hr Hc. split.
  - intros Hj failure.
    assert (H : post {| video_id := raw |} tr
                = (Ok failure, tr ++ [tool (extract_video_id raw)])).
    { apply post_failure; [assumption|]. rewrite extraction_of_body.
      unfold get_yt_dlp_data_body, subprocess_run, loads.
      unfold bind at 1. rewrite Hr, Hc. cbn [Z.eqb negb].
      unfold bind at 1. unfold lift at 1. now rewrite Hj. }
    unfold get_transcript_get. rewrite H. repeat split.
  - intros text Hj failure.
    assert (H : post {| video_id := raw |} tr
                = (Ok failure, tr ++ [tool (extract_video_id raw)])).
    { apply post_failure; [assumption|]. rewrite extraction_of_body.
      unfold get_yt_dlp_data_body, subprocess_run, loads.
      unfold bind at 1. rewrite Hr, Hc. cbn [Z.eqb negb].
      unfold bind at 1. unfold lift at 1. now rewrite Hj. }
    unfold get_transcript_get. rewrite H. repeat split.
Qed.

(** C8. When the extraction tool exits with a code other than 0,
    either handler returns the failure response whose error carries
    the tool's standard-error text: it is [Error: yt-dlp error: ]
    followed by that text. *)
Theorem tool_failure_reported (raw : str) (p : CompletedProcess) (tr : list call) :
  List.length (extract_video_id raw) = 11%nat ->
  run (yt_dlp_command (extract_video_id raw)) 60 = Completed p ->
  returncode p <> 0%Z ->
  let failure := failure_response raw (py "Error: yt-dlp error: " ++ stderr p) in
  TranscriptResponse.success failure = false /\
  TranscriptResponse.error failure = Some (py "Error: yt-dlp error: " ++ stderr p) /\
  post {| video_id := raw |} tr = (Ok failure, tr ++ [tool (extract_video_id raw)]) /\
  get raw tr = (Ok failure, tr ++ [tool (extract_video_id raw)]) /\
  respond (fst (post {| video_id := raw |} tr)) = Json 200 failure.
Proof.
  intros Hlen Hr Hc failure.
  assert (H : post {| video_id := raw |} tr
              = (Ok failure, tr ++ [tool (extract_video_id raw)])).
  { apply post_failure; [assumption|]. rewrite extraction_of_body.
    unfold get_yt_dlp_data_body, subprocess_run, bind. rewrite Hr.
    apply Z.eqb_neq in Hc. rewrite Hc. reflexivity. }
  unfold get_transcript_get. rewrite H. repeat split.
Qed.

(** C9. A response returned by the handler carries, when it reports a
    failure, the [video_id] of the request as it was sent, and when it
    reports success, the identifier [extract_video_id] made of it. *)
Theorem response_video_id (raw : str) (tr tr' : list call)
        (r : TranscriptResponse.t) :
  post {| video_id := raw |} tr = (Ok r, tr') ->
  (TranscriptResponse.success r = false -> TranscriptResponse.videoId r = raw) /\
  (TranscriptResponse.success r = true ->
   TranscriptResponse.videoId r = extract_video_id raw).
Proof.
  destruct (Nat.eq_dec (List.length (extract_video_id raw)) 11) as [Hlen | Hlen].
  - rewrite post_valid by assumption.
    destruct (extraction (extract_video_id raw) tr) as [[d|e] tr0].
    + destruct (response (extract_video_id raw) d) as [r0|e] eqn:E.
      * intros [= <- _]. apply response_keeps in E as (Hs & Hv & _).
        split; [congruence | auto].
      * intros [= <- _]. split; [reflexivity | discriminate].
    + intros [= <- _]. split; [reflexivity | discriminate].
  - destruct (post_invalid raw tr Hlen) as [detail H].
    rewrite H. discriminate.
Qed.

(** C10. Joining the texts succeeds exactly when every element
    matched by [.//text] has a text. When a caption track was found,
    fetched and parsed and some matched element has none, [join] raises
    at the first such element and the handler returns the failure
    response, whose error is [Error: ] followed by the text of that
    exception; it has no transcript and no metadata. *)
Theorem missing_text_fails (raw : str) (data : json) (kind u : str)
        (p : CompletedProcess) (root : Element) (tr : list call) :
  List.length (extract_video_id raw) = 11%nat ->
  extracted (extract_video_id raw) data ->
  selected data kind ->
  track_url kind data = Ok (JStr u) ->
  run [py "curl"; py "-s"; u] 30 = Completed p ->
  ET_fromstring (stdout p) = Some root ->
  ((exists t, join_texts root = Ok t) <-> ~ In None (texts root)) /\
  (In None (texts root) ->
   exists i,
     nth_error (texts root) i = Some None /\
     (forall j, (j < i)%nat -> nth_error (texts root) j <> Some None) /\
     let message :=
       py "Error: " ++ describe (TypeError (OpJoinItem i) NoneType) in
     post {| video_id := raw |} tr
     = (Ok (failure_response raw message),
        tr ++ [tool (extract_video_id raw); curl u]) /\
     TranscriptResponse.success (failure_response raw message) = false /\
     TranscriptResponse.transcript (failure_response raw message) = None /\
     TranscriptResponse.videoTitle (failure_response raw message) = None).
Proof.
  intros Hlen Hx Hs Hu Hr Hp.
  destruct (JoinFacts.first_none (texts root)) as [[cues Hc] | (pre & rest & Hc)].
  - split.
    + split.
      * intros _. rewrite Hc. intros Hin. apply in_map_iff in Hin as (s & Hs' & _).
        discriminate.
      * intros _. exists (joined (py " ") cues).
        now apply JoinFacts.join_texts_strings.
    + rewrite Hc. intros Hin. apply in_map_iff in Hin as (s & Hs' & _).
      discriminate.
  - pose proof (JoinFacts.join_texts_none root pre rest Hc) as Hj. split.
    + split.
      * intros [t Ht]. congruence.
      * intros Hn. exfalso. apply Hn. rewrite Hc. apply in_or_app. right. now left.
    + intros _. exists (List.length pre). split; [|split; [|split]].
      * rewrite Hc, nth_error_app2 by (rewrite length_map; lia).
        now rewrite length_map, Nat.sub_diag.
      * intros j Hlt. rewrite Hc, nth_error_app1 by (rewrite length_map; lia).
        rewrite nth_error_map. now destruct (nth_error pre j).
      * apply post_failure; [assumption|]. rewrite extraction_of_body.
        rewrite body_extracted with (data := data) by assumption.
        unfold bind. rewrite captions_selected with (kind := kind) by assumption.
        rewrite fetch_done with (u := u) (p := p) (root := root) by assumption.
        rewrite Hj. now rewrite <- app_assoc.
      * split; [reflexivity | split; reflexivity].
Qed.

End PipelineFacts.

(** * The pipeline at work *)

Module Examples.
Import World.

Example extract_watch :
  extract_video_id (py "https://www.youtube.com/watch?v=dQw4w9WgXcQ&t=3")
  = py "dQw4w9WgXcQ".
Proof. reflexivity. Qed.

Example extract_short :
  extract_video_id (py "https://youtu.be/dQw4w9WgXcQ") = py "dQw4w9WgXcQ".
Proof. reflexivity. Qed.

Example extract_bare : extract_video_id (py "dQw4w9WgXcQ") = py "dQw4w9WgXcQ".
Proof. reflexivity. Qed.

Example extract_other : extract_video_id (py "hello") = py "hello".
Proof. reflexivity. Qed.

Example hello_world_response :
  serve Stub.record hello_world {| video_id := py "https://youtu.be/dQw4w9WgXcQ" |} []
  = (Ok (TranscriptResponse.mk true id (Some (py "Song")) (Some []) (Some [])
           (Some []) (Some 212%Z) (Some 0%Z) (Some 0%Z) (Some [])
           (Some (py "music, live")) (Some []) (Some [])
           (Some (py "Hello world")) (Some 11%Z) None),
     [tool id; curl manual_url]).
Proof. reflexivity. Qed.

Example automatic_track_response :
  snd (serve Stub.automatic_record hello_world {| video_id := id |} [])
  = [tool id; curl (py "https://example.org/auto")].
Proof. reflexivity. Qed.

Example no_captions_response :
  exists r,
    serve Stub.bare_record hello_world {| video_id := id |} [] = (Ok r, [tool id]) /\
    TranscriptResponse.transcript r = Some [] /\
    TranscriptResponse.length r = Some 0%Z.
Proof. eexists. split; [reflexivity|]. split; reflexivity. Qed.

(** A title with a lone surrogate goes through the handler and is
    stopped by the encoder. *)
Example surrogate_title_response :
  exists body tr,
    Cases.handle (JObj Web.surrogate_title) World.id [] = (Ok body, tr) /\
    TranscriptResponse.success body = true /\
    respond (Ok body) = Json 200 body /\
    deliver (Ok body) = Problem 500 (py "Internal Server Error").
Proof.
  eexists. eexists. split; [reflexivity|]. split; [reflexivity|].
  split; reflexivity.
Qed.

End Examples.

(** * The theorems at concrete requests *)

Module Instances.
Import World.

Lemma invalid_identifier_400_witness :
  List.length (extract_video_id (py "abc")) <> 11%nat /\
  get_transcript fine reads parses Stub.describe Stub.lax_str Stub.lax_int
    {| video_id := py "abc" |} []
  = (Err (HTTPException 400 (py "Invalid video_id: abc. Must be 11 characters.")),
     []).
Proof.
  assert (H : List.length (extract_video_id (py "abc")) <> 11%nat)
    by (vm_compute; lia).
  split; [exact H|].
  exact (proj1 (invalid_identifier_400 fine reads parses Stub.describe
                  Stub.lax_str Stub.lax_int (py "abc") [] H)).
Defined.

Lemma caption_priority_witness :
  Tracks.english_track Stub.members "subtitles" manual_url /\
  Tracks.english_track Stub.members "automatic_captions" Web.auto_url /\
  caption_stage Web.run Web.ET_fromstring (JObj Stub.members) []
  = (Ok (py "Hello world"), [curl manual_url]) /\
  Tracks.no_english_track Web.automatic_members "subtitles" /\
  Tracks.english_track Web.automatic_members "automatic_captions" Web.auto_url /\
  caption_stage Web.run Web.ET_fromstring (JObj Web.automatic_members) []
  = (Ok (py "Other words"), [curl Web.auto_url]) /\
  Tracks.no_english_track Web.bare_members "subtitles" /\
  Tracks.no_english_track Web.bare_members "automatic_captions" /\
  caption_stage Web.run Web.ET_fromstring (JObj Web.bare_members) []
  = (Ok [], []).
Proof.
  assert (Hm : Tracks.english_track Stub.members "subtitles" manual_url).
  { eexists. eexists. eexists. split; [reflexivity|]. split; reflexivity. }
  assert (Ha : Tracks.english_track Stub.members "automatic_captions"
                 Web.auto_url).
  { eexists. eexists. eexists. split; [reflexivity|]. split; reflexivity. }
  assert (Hn : Tracks.no_english_track Web.automatic_members "subtitles").
  { right. eexists. split; reflexivity. }
  assert (Ha' : Tracks.english_track Web.automatic_members "automatic_captions"
                  Web.auto_url).
  { eexists. eexists. eexists. split; [reflexivity|]. split; reflexivity. }
  assert (Hb : Tracks.no_english_track Web.bare_members "subtitles")
    by (left; reflexivity).
  assert (Hb' : Tracks.no_english_track Web.bare_members "automatic_captions")
    by (left; reflexivity).
  split; [exact Hm|]. split; [exact Ha|]. split.
  { exact (proj1 (caption_priority Web.run reads Web.ET_fromstring Stub.describe
                    Stub.members []) manual_url Hm). }
  split; [exact Hn|]. split; [exact Ha'|]. split.
  { exact (proj1 (proj2 (caption_priority Web.run reads Web.ET_fromstring
                           Stub.describe Web.automatic_members []))
             Web.auto_url Hn Ha'). }
  split; [exact Hb|]. split; [exact Hb'|].
  exact (proj1 (proj2 (proj2 (caption_priority Web.run reads Web.ET_fromstring
                                Stub.describe Web.bare_members [])) Hb Hb')).
Defined.

Lemma transcript_joined_witness :
  Tracks.caption_address Stub.members manual_url /\
  Web.run [py "curl"; py "-s"; manual_url] 30 = Stub.finished 0 "<manual/>" "" /\
  Web.ET_fromstring (py "<manual/>") = Some Web.manual_doc /\
  Tree.matched_below (py "text") Web.manual_doc
    [Stub.caption "Hello"; Stub.caption "world"] /\
  caption_stage Web.run Web.ET_fromstring (JObj Stub.members) []
  = (Ok (py "Hello world"), [curl manual_url]) /\
  List.length (py "Hello world") = 11%nat.
Proof.
  assert (Ha : Tracks.caption_address Stub.members manual_url).
  { left. eexists. eexists. eexists. split; [reflexivity|]. split; reflexivity. }
  assert (Hm : Tree.matched_below (py "text") Web.manual_doc
                 [Stub.caption "Hello"; Stub.caption "world"])
    by exact (TreeFacts.findall_matched (py "text") Web.manual_doc).
  split; [exact Ha|]. split; [reflexivity|]. split; [reflexivity|].
  split; [exact Hm|]. split.
  - exact (proj1 (@transcript_joined Web.run Web.ET_fromstring Stub.lax_str
                    Stub.lax_int Stub.members manual_url
                    {| returncode := 0; stdout := py "<manual/>"; stderr := [] |}
                    Web.manual_doc [Stub.caption "Hello"; Stub.caption "world"]
                    [py "Hello"; py "world"] [] Ha eq_refl eq_refl Hm eq_refl)).
  - reflexivity.
Defined.

(** C4, as stated, fails: [<note>aside</note>] and [<b>big</b>] bear
    text and are not taken, and of [<text>Hello <b>big</b> world</text>]
    only what stands before its first child is. *)
Lemma transcript_not_all_texts :
  caption_stage fine (Stub.ET_fromstring (Some Web.mixed_doc))
    (JObj Stub.members) []
  = (Ok (py "Hello "), [curl manual_url]) /\
  Tree.all_texts Web.mixed_doc = [py "Hello "; py "big"; py "aside"] /\
  py "Hello " <> joined (py " ") (Tree.all_texts Web.mixed_doc).
Proof.
  split; [reflexivity|]. split; [reflexivity|]. discriminate.
Qed.

Lemma assemble_defaults_witness :
  string_list Stub.members "tags" [py "music"; py "live"] /\
  string_list Stub.members "categories" [] /\
  option_map VideoData.tags
    (match assemble id Stub.record [] with Ok d => Some d | Err _ => None end)
  = Some (py "music, live").
Proof.
  assert (Ht : string_list Stub.members "tags" [py "music"; py "live"])
    by reflexivity.
  assert (Hc : string_list Stub.members "categories" []) by reflexivity.
  split; [exact Ht|]. split; [exact Hc|].
  unfold Stub.record.
  rewrite (@assemble_defaults id Stub.members [] _ _ Ht Hc). reflexivity.
Defined.

Lemma timeout_reported_witness :
  List.length (extract_video_id watch_url) = 11%nat /\
  tool_times_out (yt_dlp_command (extract_video_id watch_url)) 60 = TimedOut /\
  fst (get_transcript tool_times_out reads parses Stub.describe Stub.lax_str
         Stub.lax_int {| video_id := watch_url |} [])
  = Ok (failure_response watch_url (py "Request timeout")) /\
  fetch_times_out [py "curl"; py "-s"; manual_url] 30 = TimedOut /\
  respond (fst (get_transcript_get fetch_times_out reads parses Stub.describe
                  Stub.lax_str Stub.lax_int watch_url []))
  = Json 200 (failure_response watch_url (py "Request timeout")).
Proof.
  assert (Hlen : List.length (extract_video_id watch_url) = 11%nat)
    by reflexivity.
  assert (Ht : tool_times_out (yt_dlp_command (extract_video_id watch_url)) 60
               = TimedOut) by reflexivity.
  assert (Hf : exists data kind u,
             extracted fetch_times_out reads (extract_video_id watch_url) data /\
             selected data kind /\
             track_url kind data = Ok (JStr u) /\
             fetch_times_out [py "curl"; py "-s"; u] 30 = TimedOut).
  { exists Stub.record, (py "subtitles"), manual_url. split.
    - eexists. split; [reflexivity|]. split; reflexivity.
    - split; [constructor; reflexivity|]. split; reflexivity. }
  split; [exact Hlen|]. split; [exact Ht|]. split.
  - exact (proj1 (proj2 (proj2
             (@timeout_reported tool_times_out reads parses Stub.describe
                Stub.lax_str Stub.lax_int watch_url [] Hlen (or_introl Ht))))).
  - split; [reflexivity|].
    exact (proj2 (proj2 (proj2 (proj2 (proj2
             (@timeout_reported fetch_times_out reads parses Stub.describe
                Stub.lax_str Stub.lax_int watch_url [] Hlen (or_intror Hf))))))).
Defined.

Lemma invalid_json_reported_witness :
  List.length (extract_video_id id) = 11%nat /\
  not_json (yt_dlp_command (extract_video_id id)) 60
  = Stub.finished 0 "<html>" "" /\
  refuses (py "<html>") = NotJSON /\
  get_transcript not_json refuses parses Stub.describe Stub.lax_str Stub.lax_int
    {| video_id := id |} []
  = (Ok (failure_response id (py "Invalid JSON response from yt-dlp")),
     [tool id]) /\
  gives_up (py "<html>")
  = LoadsError
      (py "Exceeds the limit (4300 digits) for integer string conversion") /\
  get_transcript not_json gives_up parses Stub.describe Stub.lax_str Stub.lax_int
    {| video_id := id |} []
  = (Ok (failure_response id
           (py "Error: Exceeds the limit (4300 digits) for integer string conversion")),
     [tool id]).
Proof.
  assert (Hlen : List.length (extract_video_id id) = 11%nat) by reflexivity.
  assert (Hr : not_json (yt_dlp_command (extract_video_id id)) 60
               = Stub.finished 0 "<html>" "") by reflexivity.
  split; [exact Hlen|]. split; [exact Hr|]. split; [reflexivity|]. split.
  - exact (proj1 (proj2 (proj2
             (proj1 (@invalid_json_reported not_json refuses parses
                       Stub.describe Stub.lax_str Stub.lax_int id _ []
                       Hlen Hr eq_refl) eq_refl)))).
  - split; [reflexivity|].
    exact (proj1 (proj2 (proj2
             (proj2 (@invalid_json_reported not_json gives_up parses
                       Stub.describe Stub.lax_str Stub.lax_int id _ []
                       Hlen Hr eq_refl) _ eq_refl)))).
Defined.

(** C7, as stated, fails: where [json.loads] raises [JSONDecodeError]
    the error of the failure response is not [Invalid JSON response],
    and where it fails with another exception the error is neither
    that nor the longer message. *)
Lemma invalid_json_message :
  (exists r,
     not_json (yt_dlp_command (extract_video_id id)) 60
     = Stub.finished 0 "<html>" "" /\
     refuses (py "<html>") = NotJSON /\
     fst (get_transcript not_json refuses parses Stub.describe Stub.lax_str
            Stub.lax_int {| video_id := id |} []) = Ok r /\
     TranscriptResponse.success r = false /\
     TranscriptResponse.error r <> Some (py "Invalid JSON response")) /\
  (exists r,
     (forall v, gives_up (py "<html>") <> Parsed v) /\
     fst (get_transcript not_json gives_up parses Stub.describe Stub.lax_str
            Stub.lax_int {| video_id := id |} []) = Ok r /\
     TranscriptResponse.success r = false /\
     TranscriptResponse.error r <> Some (py "Invalid JSON response") /\
     TranscriptResponse.error r
     <> Some (py "Invalid JSON response from yt-dlp")).
Proof.
  split.
  - eexists. split; [reflexivity|]. split; [reflexivity|].
    split; [reflexivity|]. split; [reflexivity|]. discriminate.
  - eexists. split; [discriminate|]. split; [reflexivity|].
    split; [reflexivity|]. split; discriminate.
Qed.

Lemma tool_failure_reported_witness :
  List.length (extract_video_id id) = 11%nat /\
  unavailable (yt_dlp_command (extract_video_id id)) 60
  = Stub.finished 1 "" "ERROR: Video unavailable" /\
  get_transcript unavailable reads parses Stub.describe Stub.lax_str Stub.lax_int
    {| video_id := id |} []
  = (Ok (failure_response id
           (py "Error: yt-dlp error: ERROR: Video unavailable")),
     [tool id]).
Proof.
  assert (Hlen : List.length (extract_video_id id) = 11%nat) by reflexivity.
  assert (Hr : unavailable (yt_dlp_command (extract_video_id id)) 60
               = Stub.finished 1 "" "ERROR: Video unavailable") by reflexivity.
  assert (Hc : returncode {| returncode := 1; stdout := py "";
                             stderr := py "ERROR: Video unavailable" |} <> 0%Z)
    by (cbn; lia).
  split; [exact Hlen|]. split; [exact Hr|].
  exact (proj1 (proj2 (proj2
           (@tool_failure_reported unavailable reads parses Stub.describe
              Stub.lax_str Stub.lax_int id _ [] Hlen Hr Hc)))).
Defined.

Lemma response_video_id_witness :
  get_transcript tool_times_out reads parses Stub.describe Stub.lax_str
    Stub.lax_int {| video_id := watch_url |} []
  = (Ok (failure_response watch_url (py "Request timeout")), [tool id]) /\
  TranscriptResponse.videoId (failure_response watch_url (py "Request timeout"))
  = watch_url /\
  watch_url <> extract_video_id watch_url /\
  (exists r tr,
     get_transcript fine reads parses Stub.describe Stub.lax_str Stub.lax_int
       {| video_id := watch_url |} [] = (Ok r, tr) /\
     TranscriptResponse.success r = true /\
     TranscriptResponse.videoId r = id).
Proof.
  assert (H : get_transcript tool_times_out reads parses Stub.describe
                Stub.lax_str Stub.lax_int {| video_id := watch_url |} []
              = (Ok (failure_response watch_url (py "Request timeout")),
                 [tool id])) by reflexivity.
  split; [exact H|]. split.
  - exact (proj1 (@response_video_id tool_times_out reads parses Stub.describe
                    Stub.lax_str Stub.lax_int watch_url [] _ _ H) eq_refl).
  - split; [discriminate|].
    eexists. eexists. split; [reflexivity|]. split; [reflexivity|].
    exact (proj2 (@response_video_id fine reads parses Stub.describe
                    Stub.lax_str Stub.lax_int watch_url [] _ _ eq_refl) eq_refl).
Defined.

Lemma missing_text_fails_witness :
  List.length (extract_video_id id) = 11%nat /\
  extracted fine reads (extract_video_id id) Stub.record /\
  selected Stub.record (py "subtitles") /\
  track_url (py "subtitles") Stub.record = Ok (JStr manual_url) /\
  In None (texts with_silence) /\
  exists i,
    nth_error (texts with_silence) i = Some None /\
    (forall j, (j < i)%nat -> nth_error (texts with_silence) j <> Some None) /\
    get_transcript fine reads parses_silence Stub.describe Stub.lax_str
      Stub.lax_int {| video_id := id |} []
    = (Ok (failure_response id
             (py "Error: " ++ Stub.describe (TypeError (OpJoinItem i) NoneType))),
       [tool id; curl manual_url]).
Proof.
  assert (Hlen : List.length (extract_video_id id) = 11%nat) by reflexivity.
  assert (Hx : extracted fine reads (extract_video_id id) Stub.record).
  { eexists. split; [reflexivity|]. split; reflexivity. }
  assert (Hs : selected Stub.record (py "subtitles"))
    by (constructor; reflexivity).
  assert (Hu : track_url (py "subtitles") Stub.record = Ok (JStr manual_url))
    by reflexivity.
  assert (Hn : In None (texts with_silence)) by (right; left; reflexivity).
  split; [exact Hlen|]. split; [exact Hx|]. split; [exact Hs|].
  split; [exact Hu|]. split; [exact Hn|].
  destruct (proj2 (@missing_text_fails fine reads parses_silence Stub.describe
                     Stub.lax_str Stub.lax_int id Stub.record (py "subtitles")
                     manual_url _ with_silence [] Hlen Hx Hs Hu eq_refl eq_refl)
                  Hn)
    as (i & Hi & Hmin & Hpost & _).
  exists i. split; [exact Hi|]. split; [exact Hmin|]. exact Hpost.
Defined.

End Instances.

(** * Further properties of the Identifier Normalizer *)

Module NormalizerMore.
Import Re Direct ReFacts PatternFacts BareFacts Shape Normalizer Words.

Lemma id_char_plain (c : char) : id_char c -> plain c.
Proof.
  unfold id_char, is_letter, is_digit, plain. intros H.
  split; intros ->; destruct H as [[[H1 H2]|[H1 H2]]|[[H1 H2]|[H|H]]];
    try discriminate; try (now apply H1); try (now apply H2).
Qed.

Lemma plain_not_lead (c : char) :
  plain c -> in_set [Single 63; Single 38] c = false.
Proof.
  intros [H1 H2]. unfold in_set. cbn [existsb in_item].
  apply N.eqb_neq in H1, H2. now rewrite H1, H2.
Qed.

Lemma search_query_skip (pre s : str) (b : bool) :
  Forall plain pre ->
  search_from pattern_query b (pre ++ s)
  = search_from pattern_query (b && match pre with [] => true | _ => false end) s.
Proof.
  intros H. revert b. induction H as [|c pre Hc _ IH]; intros b.
  - cbn [app]. now rewrite andb_true_r.
  - cbn [app search_from]. rewrite match_query. cbn [query_here].
    rewrite (plain_not_lead Hc), IH, andb_false_r. cbn [andb].
    destruct pre; reflexivity.
Qed.

Lemma search_query_plain (s : str) :
  Forall plain s -> search pattern_query s = None.
Proof.
  intros H. unfold search. rewrite <- (app_nil_r s).
  rewrite search_query_skip by assumption. now destruct s.
Qed.

Lemma identifier_plain (g : str) : identifier g -> Forall plain g.
Proof.
  intros [_ H]. eapply Forall_impl; [|exact H]. apply id_char_plain.
Qed.

Lemma id_prefix_app (g post : str) :
  identifier g -> id_prefix (g ++ post) = Some g.
Proof. intros H. apply id_prefix_spec. split; [assumption | now exists post]. Qed.

(** An occurrence of a lead and an identifier needs room. *)
Lemma occurs_length (lead : str -> Prop) (n : nat) (s pre g : str) :
  (forall l, lead l -> List.length l = n) ->
  occurs lead s pre g -> (n + 11 <= List.length s)%nat.
Proof.
  intros Hn (l & post & Hl & [Hg _] & ->).
  rewrite !length_app, (Hn l Hl), Hg. lia.
Qed.

Lemma query_lead_length (l : str) : query_lead l -> List.length l = 3%nat.
Proof. now intros [-> | ->]. Qed.

Lemma short_lead_length (l : str) : short_lead l -> List.length l = 9%nat.
Proof. now intros ->. Qed.

Lemma short_search_none (s : str) :
  (List.length s < 20)%nat -> search pattern_short s = None.
Proof.
  intros H. apply search_short_none. intros pre g Ho.
  apply (occurs_length (n := 9) short_lead_length) in Ho. lia.
Qed.

Lemma query_search_none (s : str) :
  (List.length s < 14)%nat -> search pattern_query s = None.
Proof.
  intros H. apply search_query_none. intros pre g Ho.
  apply (occurs_length (n := 3) query_lead_length) in Ho. lia.
Qed.

Lemma extract_identifier (g : str) : identifier g -> extract_video_id g = g.
Proof.
  intros Hid. rewrite extract_video_id_unfold.
  destruct Hid as [Hlen Hall].
  rewrite query_search_none, short_search_none by lia.
  rewrite search_bare.
  assert (H : bare_here g = Some g).
  { apply bare_here_spec. split; [now split | now left]. }
  now rewrite H.
Qed.

Lemma search_from_hit (ns : list node) (b : bool) (s g : str) :
  match_here ns b false s = Some g -> search_from ns b s = Some g.
Proof. intros H. destruct s; cbn [search_from]; now rewrite H. Qed.

Lemma search_from_query_flag (s : str) (b : bool) :
  search_from pattern_query b s = search pattern_query s.
Proof. unfold search. destruct s; cbn [search_from]; now rewrite !match_query. Qed.

Lemma search_short_skip (pre s : str) (b : bool) :
  ~ In 121%N pre ->
  search_from pattern_short b (pre ++ s)
  = search_from pattern_short (b && match pre with [] => true | _ => false end) s.
Proof.
  revert b. induction pre as [|c pre IH]; intros b Hy.
  - cbn [app]. now rewrite andb_true_r.
  - cbn [app search_from]. rewrite match_short. unfold short_here.
    assert (Hc : N.eqb 121 c = false).
    { apply N.eqb_neq. intros <-. apply Hy. now left. }
    change (starts_with (py "youtu.be/") (c :: pre ++ s))
      with (N.eqb 121 c && starts_with (py "outu.be/") (pre ++ s)).
    rewrite Hc. cbn [andb]. rewrite IH by (intros H; apply Hy; now right).
    rewrite andb_false_r. destruct pre; reflexivity.
Qed.

(** X1. An address with a [v=] parameter gives back its identifier:
    when no [?] or [&] comes before the parameter, the result is the
    eleven identifier characters after [?v=] or [&v=], whatever follows
    them. So the page address [get_yt_dlp_data] builds from an
    identifier, the last element of its command, normalizes to that
    identifier. *)
Theorem query_round_trip (g : str) :
  identifier g ->
  (forall pre l post,
     Forall plain pre -> query_lead l ->
     extract_video_id (pre ++ l ++ g ++ post) = g) /\
  extract_video_id (watch_page g) = g /\
  extract_video_id (last (yt_dlp_command g) []) = g.
Proof.
  intros Hid.
  assert (H : forall pre l post,
             Forall plain pre -> query_lead l ->
             extract_video_id (pre ++ l ++ g ++ post) = g).
  { intros pre l post Hpre Hl. rewrite extract_video_id_unfold.
    unfold search at 1. rewrite search_query_skip by assumption.
    rewrite search_from_hit with (g := g); [reflexivity|].
    rewrite match_query. apply query_here_spec. now exists l, post. }
  split; [exact H|].
  assert (Hw : extract_video_id (watch_page g) = g).
  { specialize (H (py "https://www.youtube.com/watch") (py "?v=") []).
    rewrite app_nil_r in H. apply H; [|now left].
    repeat constructor; discriminate. }
  split; [exact Hw | exact Hw].
Qed.

(** X2. A short link gives back its identifier: when no [?], [&] or
    [y] comes before [youtu.be/] and what follows the identifier holds
    no [v=] parameter, the result is the eleven identifier characters
    after [youtu.be/]. *)
Theorem short_link_round_trip (g pre post : str) :
  identifier g ->
  Forall plain pre -> ~ In 121%N pre ->
  absent query_lead post ->
  extract_video_id (pre ++ py "youtu.be/" ++ g ++ post) = g.
Proof.
  intros Hid Hpre Hy Hpost. rewrite extract_video_id_unfold.
  assert (Hq : search pattern_query (pre ++ py "youtu.be/" ++ g ++ post) = None).
  { unfold search. rewrite !app_assoc.
    rewrite search_query_skip.
    - rewrite search_from_query_flag. now apply search_query_none.
    - apply Forall_app. split; [apply Forall_app; split|].
      + assumption.
      + repeat constructor; discriminate.
      + now apply identifier_plain. }
  rewrite Hq. unfold search. rewrite search_short_skip by assumption.
  rewrite search_from_hit with (g := g); [reflexivity|].
  rewrite match_short. apply short_here_spec.
  exists (py "youtu.be/"), post. split; [reflexivity | now split].
Qed.

Lemma extract_cases (s : str) :
  extract_video_id s = s \/
  (identifier (extract_video_id s) /\
   exists pre post, s = pre ++ extract_video_id s ++ post).
Proof.
  destruct (extract_normalizes s) as [g H|g _ H|g _ _ Hid Hw|_ _ _].
  - right. destruct H as (pre & (l & post & _ & Hid & ->) & _).
    split; [assumption|]. exists (pre ++ l), post. now rewrite <- app_assoc.
  - right. destruct H as (pre & (l & post & _ & Hid & ->) & _).
    split; [assumption|]. exists (pre ++ l), post. now rewrite <- app_assoc.
  - right. split; [assumption|]. destruct Hw as [-> | ->].
    + exists [], []. now rewrite app_nil_r.
    + now exists [], [10%N].
  - now left.
Qed.

(** X3. The result is the input itself, or eleven identifier
    characters that stand in the input, one after the other. *)
Theorem extract_video_id_shape (s : str) :
  extract_video_id s = s \/
  (identifier (extract_video_id s) /\
   exists pre post, s = pre ++ extract_video_id s ++ post).
Proof.
  destruct (extract_cases s) as [H | [Hid (pre & post & H)]].
  - now left.
  - right. split; [assumption|]. now exists pre, post.
Qed.

(** X4. Normalizing twice is normalizing once. *)
Theorem extract_video_id_idempotent (s : str) :
  extract_video_id (extract_video_id s) = extract_video_id s.
Proof.
  destruct (extract_cases s) as [H | [Hid _]].
  - now rewrite H.
  - now apply extract_identifier.
Qed.

(** X5. An input of at most eleven characters is returned as it is:
    an eleven-character string passes the length check of the handlers
    whatever its characters, and a shorter one never does. *)
Theorem extract_video_id_short_input (s : str) :
  (List.length s <= 11)%nat -> extract_video_id s = s.
Proof.
  intros Hlen. rewrite extract_video_id_unfold.
  rewrite query_search_none, short_search_none by lia.
  rewrite search_bare. destruct (bare_here s) as [g|] eqn:E; [|reflexivity].
  apply bare_here_spec in E as [[Hg _] [-> | ->]]; [reflexivity|].
  rewrite length_app in Hlen. cbn in Hlen. lia.
Qed.

(** X6. The length check of the handlers fails exactly when no
    pattern matched and the input itself does not have eleven
    characters. *)
Theorem validation_fails_iff (s : str) :
  List.length (extract_video_id s) <> 11%nat <->
  extract_video_id s = s /\ List.length s <> 11%nat.
Proof.
  split.
  - intros H. destruct (extract_cases s) as [E | [[Hl _] _]].
    + split; [assumption | now rewrite E in H].
    + contradiction.
  - intros [E H]. now rewrite E.
Qed.

End NormalizerMore.

(** * Further properties of the pipeline *)

(** ** Which exceptions the operations on the document raise *)

Module ErrorFacts.
Import Words.

Ltac crush_error :=
  repeat match goal with
         | |- context [match ?x with _ => _ end] => destruct x
         end;
  try discriminate; intros [= <-]; exact I.

Lemma contains_unnamed (k : str) (v : json) (e : exn) :
  contains k v = Err e -> unnamed e.
Proof. unfold contains. crush_error. Qed.

Lemma getitem_unnamed (v : json) (k : str) (e : exn) :
  getitem v k = Err e -> unnamed e.
Proof. unfold getitem. crush_error. Qed.

Lemma getitem0_unnamed (v : json) (e : exn) : getitem0 v = Err e -> unnamed e.
Proof. unfold getitem0. crush_error. Qed.

Lemma dict_get_unnamed (v : json) (k : str) (d : json) (e : exn) :
  dict_get v k d = Err e -> unnamed e.
Proof. unfold dict_get. crush_error. Qed.

Lemma rbind_unnamed {A B} (r : result A) (k : A -> result B) (e : exn) :
  (forall e', r = Err e' -> unnamed e') ->
  (forall a e', r = Ok a -> k a = Err e' -> unnamed e') ->
  rbind r k = Err e -> unnamed e.
Proof. destruct r as [a|e0]; cbn [rbind]; intros H1 H2 H; [eauto | injection H as <-; eauto]. Qed.

Lemma join_from_unnamed (sep : str) (items : list json) : forall i e,
  join_from i sep items = Err e -> unnamed e.
Proof.
  induction items as [|x rest IH]; intros i e; [discriminate|].
  destruct x; try (intros [= <-]; exact I).
  cbn [join_from]. destruct rest as [|y rest']; [discriminate|].
  destruct (join_from (S i) sep (y :: rest')) as [t|e0] eqn:E; cbn [rbind].
  - discriminate.
  - intros [= <-]. eapply IH, E.
Qed.

Lemma str_join_unnamed (sep : str) (v : json) (e : exn) :
  str_join sep v = Err e -> unnamed e.
Proof.
  unfold str_join. apply rbind_unnamed.
  - unfold iterate. intros ?. crush_error.
  - intros items e' _. apply join_from_unnamed.
Qed.

Lemma has_track_unnamed (kind : str) (data : json) (e : exn) :
  has_track kind data = Err e -> unnamed e.
Proof.
  unfold has_track. apply rbind_unnamed; [intros ?; apply contains_unnamed|].
  intros [|] ? _; [|discriminate].
  apply rbind_unnamed; [intros ?; apply getitem_unnamed|].
  intros tracks ? _. apply contains_unnamed.
Qed.

Lemma track_url_unnamed (kind : str) (data : json) (e : exn) :
  track_url kind data = Err e -> unnamed e.
Proof.
  unfold track_url.
  apply rbind_unnamed; [intros ?; apply getitem_unnamed|]. intros tracks ? _.
  apply rbind_unnamed; [intros ?; apply getitem_unnamed|]. intros en ? _.
  apply rbind_unnamed; [intros ?; apply getitem0_unnamed|]. intros first ? _.
  apply getitem_unnamed.
Qed.

Lemma argument_unnamed (v : json) (e : exn) : argument v = Err e -> unnamed e.
Proof. unfold argument. crush_error. Qed.

Lemma join_texts_unnamed (root : Element) (e : exn) :
  join_texts root = Err e -> unnamed e.
Proof. unfold join_texts. apply str_join_unnamed. Qed.

Lemma assemble_unnamed (video_id : str) (data : json) (t : str) (e : exn) :
  assemble video_id data t = Err e -> unnamed e.
Proof.
  unfold assemble.
  repeat (apply rbind_unnamed;
          [intros ?; first [apply dict_get_unnamed | apply str_join_unnamed]
          | intros ? ? _]).
  discriminate.
Qed.

(** [assemble] succeeds on a JSON object only. *)
Lemma assemble_object (video_id : str) (data : json) (t : str) (d : VideoData.t) :
  assemble video_id data t = Ok d -> exists m, data = JObj m.
Proof.
  destruct data; try discriminate. intros _. now eexists.
Qed.

End ErrorFacts.

(** ** The pipeline, case by case *)

Section PipelineMore.
Import Words ErrorFacts.

Variable run : list str -> Z -> run_outcome.
Variable json_loads : str -> loads_outcome.
Variable ET_fromstring : str -> option Element.
Variable describe : exn -> str.
Variable lax_str : json -> option str.
Variable lax_int : json -> option Z.

Local Abbreviation fetch := (fetch_transcript run ET_fromstring).
Local Abbreviation captions := (caption_stage run ET_fromstring).
Local Abbreviation extraction := (get_yt_dlp_data run json_loads ET_fromstring describe).
Local Abbreviation extraction_body := (get_yt_dlp_data_body run json_loads ET_fromstring).
Local Abbreviation response := (success_response lax_str lax_int).
Local Abbreviation post :=
  (get_transcript run json_loads ET_fromstring describe lax_str lax_int).
Local Abbreviation get :=
  (get_transcript_get run json_loads ET_fromstring describe lax_str lax_int).
Local Abbreviation extracted := (extracted run json_loads).

Lemma fetch_unfold (kind : str) (data : json) (tr : list call) :
  fetch kind data tr =
  match track_url kind data with
  | Err e => (Err e, tr)
  | Ok v =>
      match argument v with
      | Err e => (Err e, tr)
      | Ok u =>
          match run [py "curl"; py "-s"; u] 30 with
          | TimedOut =>
              (Err (TimeoutExpired [py "curl"; py "-s"; u] 30), tr ++ [curl u])
          | Failed text => (Err (OtherError text), tr ++ [curl u])
          | Completed p =>
              match ET_fromstring (stdout p) with
              | None => (Err (ParseError (stdout p)), tr ++ [curl u])
              | Some root => (join_texts root, tr ++ [curl u])
              end
          end
      end
  end.
Proof.
  unfold fetch_transcript, bind, lift, subprocess_run, fromstring, curl.
  destruct (track_url kind data) as [v|e]; [|reflexivity].
  destruct (argument v) as [u|e]; [|reflexivity].
  destruct (run [py "curl"; py "-s"; u] 30) as [p| |text]; try reflexivity.
  destruct (ET_fromstring (stdout p)) as [root|]; [|reflexivity].
  now destruct (join_texts root).
Qed.

Lemma captions_unfold (data : json) (tr : list call) :
  captions data tr =
  match has_track (py "subtitles") data with
  | Err e => (Err e, tr)
  | Ok true => fetch (py "subtitles") data tr
  | Ok false =>
      match has_track (py "automatic_captions") data with
      | Err e => (Err e, tr)
      | Ok true => fetch (py "automatic_captions") data tr
      | Ok false => (Ok [], tr)
      end
  end.
Proof.
  unfold caption_stage, bind, lift, ret.
  destruct (has_track (py "subtitles") data) as [[|]|e]; try reflexivity.
  destruct (has_track (py "automatic_captions") data) as [[|]|e]; reflexivity.
Qed.

Lemma body_unfold (video_id : str) (tr : list call) :
  extraction_body video_id tr =
  match run (yt_dlp_command video_id) 60 with
  | TimedOut =>
      (Err (TimeoutExpired (yt_dlp_command video_id) 60), tr ++ [tool video_id])
  | Failed text => (Err (OtherError text), tr ++ [tool video_id])
  | Completed p =>
      if Z.eqb (returncode p) 0
      then match json_loads (stdout p) with
           | NotJSON => (Err (JSONDecodeError (stdout p)), tr ++ [tool video_id])
           | LoadsError text => (Err (OtherError text), tr ++ [tool video_id])
           | Parsed data =>
               match captions data (tr ++ [tool video_id]) with
               | (Ok t, tr') => (assemble video_id data t, tr')
               | (Err e, tr') => (Err e, tr')
               end
           end
      else (Err (Exception (py "yt-dlp error: " ++ stderr p)),
            tr ++ [tool video_id])
  end.
Proof.
  unfold get_yt_dlp_data_body, subprocess_run, loads, tool.
  unfold bind at 1.
  destruct (run (yt_dlp_command video_id) 60) as [p| |text]; try reflexivity.
  destruct (Z.eqb (returncode p) 0); cbn [negb]; [|reflexivity].
  unfold bind at 1. unfold lift at 1.
  destruct (json_loads (stdout p)) as [data| |text]; reflexivity.
Qed.

(** *** The subprocesses of a request *)

Lemma fetch_trace (kind : str) (data : json) (tr : list call) :
  snd (fetch kind data tr) = tr \/
  exists u, snd (fetch kind data tr) = tr ++ [curl u].
Proof.
  rewrite fetch_unfold.
  destruct (track_url kind data) as [v|e]; [|now left].
  destruct (argument v) as [u|e]; [|now left].
  right. exists u.
  destruct (run [py "curl"; py "-s"; u] 30) as [p| |text]; try reflexivity.
  destruct (ET_fromstring (stdout p)); reflexivity.
Qed.

Lemma captions_trace (data : json) (tr : list call) :
  snd (captions data tr) = tr \/
  exists u, snd (captions data tr) = tr ++ [curl u].
Proof.
  rewrite captions_unfold.
  destruct (has_track (py "subtitles") data) as [[|]|e];
    [apply fetch_trace| |now left].
  destruct (has_track (py "automatic_captions") data) as [[|]|e];
    [apply fetch_trace|now left|now left].
Qed.

Lemma body_trace (video_id : str) (tr : list call) :
  snd (extraction_body video_id tr) = tr ++ [tool video_id] \/
  exists u, snd (extraction_body video_id tr) = tr ++ [tool video_id; curl u].
Proof.
  rewrite body_unfold.
  destruct (run (yt_dlp_command video_id) 60) as [p| |text]; try now left.
  destruct (Z.eqb (returncode p) 0); [|now left].
  destruct (json_loads (stdout p)) as [data| |text]; try now left.
  destruct (captions_trace data (tr ++ [tool video_id])) as [H | [u H]];
    destruct (captions data (tr ++ [tool video_id])) as [[t|e] tr'];
    cbn [snd] in *; subst tr'.
  - now left.
  - now left.
  - right. exists u. now rewrite <- app_assoc.
  - right. exists u. now rewrite <- app_assoc.
Qed.

Lemma extraction_trace (video_id : str) (tr : list call) :
  snd (extraction video_id tr) = snd (extraction_body video_id tr).
Proof.
  rewrite extraction_of_body.
  destruct (extraction_body video_id tr) as [[d|e] tr']; [reflexivity|].
  now destruct e.
Qed.

Lemma post_trace_valid (raw : str) (tr : list call) :
  List.length (extract_video_id raw) = 11%nat ->
  snd (post {| video_id := raw |} tr)
  = snd (extraction_body (extract_video_id raw) tr).
Proof.
  intros Hlen. rewrite post_valid, <- extraction_trace by assumption.
  destruct (extraction (extract_video_id raw) tr) as [[d|e] tr']; [|reflexivity].
  now destruct (response (extract_video_id raw) d).
Qed.

(** X7. A request starts no subprocess when its identifier fails
    the length check; otherwise it starts the extraction tool once,
    with its 60 seconds, and after it at most one [curl], with its 30
    seconds. Nothing is started twice. *)
Theorem subprocesses_of_request (raw : str) (tr : list call) :
  (List.length (extract_video_id raw) <> 11%nat /\
   snd (post {| video_id := raw |} tr) = tr) \/
  (List.length (extract_video_id raw) = 11%nat /\
   (snd (post {| video_id := raw |} tr) = tr ++ [tool (extract_video_id raw)] \/
    exists u,
      snd (post {| video_id := raw |} tr)
      = tr ++ [tool (extract_video_id raw); curl u])).
Proof.
  destruct (Nat.eq_dec (List.length (extract_video_id raw)) 11) as [Hlen | Hlen].
  - right. split; [assumption|]. rewrite post_trace_valid by assumption.
    apply body_trace.
  - left. split; [assumption|].
    destruct (post_invalid run json_loads ET_fromstring describe lax_str lax_int
                raw tr Hlen) as [detail H].
    now rewrite H.
Qed.

(** *** Where the errors of [get_yt_dlp_data] come from *)

Lemma fetch_error (kind : str) (data : json) (tr : list call) (e : exn) :
  fst (fetch kind data tr) = Err e ->
  unnamed e \/
  (exists u, e = TimeoutExpired [py "curl"; py "-s"; u] 30 /\
             run [py "curl"; py "-s"; u] 30 = TimedOut) \/
  (exists u text, e = OtherError text /\
                  run [py "curl"; py "-s"; u] 30 = Failed text).
Proof.
  rewrite fetch_unfold.
  destruct (track_url kind data) as [v|e0] eqn:Ev.
  2:{ intros [= <-]. left. eapply track_url_unnamed, Ev. }
  destruct (argument v) as [u|e0] eqn:Ea.
  2:{ intros [= <-]. left. eapply argument_unnamed, Ea. }
  destruct (run [py "curl"; py "-s"; u] 30) as [p| |text] eqn:Er.
  - destruct (ET_fromstring (stdout p)) as [root|].
    + cbn [fst]. intros Hj. left. eapply join_texts_unnamed, Hj.
    + intros [= <-]. left. exact I.
  - intros [= <-]. right. left. now exists u.
  - intros [= <-]. right. right. now exists u, text.
Qed.

Lemma captions_error (data : json) (tr : list call) (e : exn) :
  fst (captions data tr) = Err e ->
  unnamed e \/
  (exists u, e = TimeoutExpired [py "curl"; py "-s"; u] 30 /\
             run [py "curl"; py "-s"; u] 30 = TimedOut) \/
  (exists u text, e = OtherError text /\
                  run [py "curl"; py "-s"; u] 30 = Failed text).
Proof.
  rewrite captions_unfold.
  destruct (has_track (py "subtitles") data) as [[|]|e0] eqn:Em.
  - apply fetch_error.
  - destruct (has_track (py "automatic_captions") data) as [[|]|e0] eqn:Ea.
    + apply fetch_error.
    + discriminate.
    + intros [= <-]. left. eapply has_track_unnamed, Ea.
  - intros [= <-]. left. eapply has_track_unnamed, Em.
Qed.

Lemma str_of_unnamed (e : exn) : unnamed e -> str_of describe e = describe e.
Proof. now destruct e. Qed.

(** X8. What leaves [get_yt_dlp_data] as an exception is a plain
    [Exception] of one of three kinds: [Request timeout], and then the
    extraction tool or a caption fetch did time out; [Invalid JSON
    response from yt-dlp], and then the tool exited with 0 and its
    output was refused by the JSON parser; or a message that starts
    with [Error: ]. *)
Theorem extraction_error_cause (video_id : str) (tr tr' : list call) (e : exn) :
  extraction video_id tr = (Err e, tr') ->
  (e = Exception (py "Request timeout") /\
   (run (yt_dlp_command video_id) 60 = TimedOut \/
    exists u, run [py "curl"; py "-s"; u] 30 = TimedOut)) \/
  (e = Exception (py "Invalid JSON response from yt-dlp") /\
   exists p, run (yt_dlp_command video_id) 60 = Completed p /\
             returncode p = 0%Z /\ json_loads (stdout p) = NotJSON) \/
  (exists text, e = Exception (py "Error: " ++ text)).
Proof.
  rewrite extraction_of_body, body_unfold.
  destruct (run (yt_dlp_command video_id) 60) as [p| |text] eqn:Er.
  - destruct (Z.eqb (returncode p) 0) eqn:Ec.
    + apply Z.eqb_eq in Ec.
      destruct (json_loads (stdout p)) as [data| |text] eqn:Ej.
      * destruct (captions data (tr ++ [tool video_id])) as [[t|e0] tr0] eqn:Eq.
        -- destruct (assemble video_id data t) as [d|e0] eqn:Ea; [discriminate|].
           apply assemble_unnamed in Ea.
           destruct e0; try contradiction; intros [= <- _]; right; right;
             eexists; reflexivity.
        -- assert (Hc : fst (captions data (tr ++ [tool video_id])) = Err e0)
             by now rewrite Eq.
           apply captions_error in Hc
             as [Hu | [(u & -> & Hr) | (u & text & -> & Hr)]].
           ++ destruct e0; try contradiction; intros [= <- _]; right; right;
                eexists; reflexivity.
           ++ intros [= <- _]. left. split; [reflexivity|]. right. now exists u.
           ++ intros [= <- _]. right. right. eexists; reflexivity.
      * intros [= <- _]. right. left. split; [reflexivity|]. now exists p.
      * intros [= <- _]. right. right. eexists; reflexivity.
    + intros [= <- _]. right. right. eexists; reflexivity.
  - intros [= <- _]. left. split; [reflexivity|]. now left.
  - intros [= <- _]. right. right. eexists; reflexivity.
Qed.

(** *** What a success rests on *)

Lemma extraction_ok (video_id : str) (tr tr' : list call) (d : VideoData.t) :
  extraction video_id tr = (Ok d, tr') ->
  exists p m t,
    run (yt_dlp_command video_id) 60 = Completed p /\
    returncode p = 0%Z /\
    json_loads (stdout p) = Parsed (JObj m) /\
    captions (JObj m) (tr ++ [tool video_id]) = (Ok t, tr') /\
    assemble video_id (JObj m) t = Ok d.
Proof.
  rewrite extraction_of_body, body_unfold.
  destruct (run (yt_dlp_command video_id) 60) as [p| |text] eqn:Er;
    try discriminate.
  destruct (Z.eqb (returncode p) 0) eqn:Ec; [|discriminate].
  apply Z.eqb_eq in Ec.
  destruct (json_loads (stdout p)) as [data| |text] eqn:Ej; try discriminate.
  destruct (captions data (tr ++ [tool video_id])) as [[t|e0] tr0] eqn:Eq.
  - destruct (assemble video_id data t) as [d0|e0] eqn:Ea.
    + intros [= <- <-]. destruct (assemble_object _ _ _ Ea) as [m ->].
      now exists p, m, t.
    + now destruct e0.
  - now destruct e0.
Qed.

(** X9. Every response the handler returns is of one of two kinds:
    a failure, which holds the request's [video_id], the error message
    and nothing else; or a success, which has no error, an identifier
    of eleven characters, tags and categories, and a transcript whose
    number of characters is the [length] field. *)
Theorem response_invariant (raw : str) (tr tr' : list call)
        (r : TranscriptResponse.t) :
  post {| video_id := raw |} tr = (Ok r, tr') ->
  (exists message, r = failure_response raw message) \/
  (TranscriptResponse.success r = true /\
   TranscriptResponse.error r = None /\
   TranscriptResponse.videoId r = extract_video_id raw /\
   List.length (TranscriptResponse.videoId r) = 11%nat /\
   (exists tags categories,
      TranscriptResponse.tags r = Some tags /\
      TranscriptResponse.categories r = Some categories) /\
   exists t,
     TranscriptResponse.transcript r = Some t /\
     TranscriptResponse.length r = Some (Z.of_nat (List.length t))).
Proof.
  destruct (Nat.eq_dec (List.length (extract_video_id raw)) 11) as [Hlen | Hlen].
  - rewrite post_valid by assumption.
    destruct (extraction (extract_video_id raw) tr) as [[d|e] tr0] eqn:E.
    + destruct (response (extract_video_id raw) d) as [r0|e] eqn:Er.
      * intros [= <- _]. right.
        apply response_keeps in Er as (Hs & Hv & Ht & Hc & Htr & Hl & He).
        apply extraction_ok in E as (p & m & t & _ & _ & _ & _ & Ha).
        apply assemble_keeps in Ha as (_ & Ha1 & Ha2).
        split; [assumption|]. split; [assumption|]. split; [assumption|].
        split; [now rewrite Hv|]. split; [eauto|].
        exists t. split; congruence.
      * intros [= <- _]. left. eauto.
    + intros [= <- _]. left. eauto.
  - destruct (post_invalid run json_loads ET_fromstring describe lax_str lax_int
                raw tr Hlen) as [detail H].
    rewrite H. discriminate.
Qed.

(** X10. A success is never reported unless the identifier has
    eleven characters, the extraction tool exited with 0 and its output
    parsed to a JSON object: a document that is a list, a string, a
    number or null ends in a failure response. *)
Theorem success_needs_object (raw : str) (tr tr' : list call)
        (r : TranscriptResponse.t) :
  post {| video_id := raw |} tr = (Ok r, tr') ->
  TranscriptResponse.success r = true ->
  List.length (extract_video_id raw) = 11%nat /\
  exists m, extracted (extract_video_id raw) (JObj m).
Proof.
  destruct (Nat.eq_dec (List.length (extract_video_id raw)) 11) as [Hlen | Hlen].
  - rewrite post_valid by assumption.
    destruct (extraction (extract_video_id raw) tr) as [[d|e] tr0] eqn:E.
    + apply extraction_ok in E as (p & m & t & Hr & Hc & Hj & _).
      intros _ _. split; [assumption|]. exists m, p. auto.
    + intros [= <- _]. discriminate.
  - destruct (post_invalid run json_loads ET_fromstring describe lax_str lax_int
                raw tr Hlen) as [detail H].
    rewrite H. discriminate.
Qed.

(** *** Errors after the extraction *)

Lemma post_body_unnamed (raw : str) (tr tr' : list call) (e : exn) :
  List.length (extract_video_id raw) = 11%nat ->
  extraction_body (extract_video_id raw) tr = (Err e, tr') ->
  unnamed e ->
  post {| video_id := raw |} tr
  = (Ok (failure_response raw (py "Error: " ++ describe e)), tr').
Proof.
  intros Hlen Hb Hu. apply post_failure; [assumption|].
  rewrite extraction_of_body, Hb, (str_of_unnamed _ Hu).
  now destruct e.
Qed.

Lemma body_after_extraction (video_id : str) (data : json) (tr : list call) :
  extracted video_id data ->
  extraction_body video_id tr =
  match captions data (tr ++ [tool video_id]) with
  | (Ok t, tr') => (assemble video_id data t, tr')
  | (Err e, tr') => (Err e, tr')
  end.
Proof.
  intros (p & Hr & Hc & Hj). rewrite body_unfold, Hr, Hc, Hj. reflexivity.
Qed.

(** X11. When the first address of the track the caption stage
    chose cannot be read (the list under ['en'] is empty, its first
    entry has no ['url'], ...), the request fails with [Error: ] and the
    text of that exception; nothing is fetched and the other track is
    not tried. *)
Theorem unreadable_track (raw : str) (data : json) (kind : str) (e : exn)
        (tr : list call) :
  List.length (extract_video_id raw) = 11%nat ->
  extracted (extract_video_id raw) data ->
  selected data kind ->
  track_url kind data = Err e ->
  post {| video_id := raw |} tr
  = (Ok (failure_response raw (py "Error: " ++ describe e)),
     tr ++ [tool (extract_video_id raw)]).
Proof.
  intros Hlen Hx Hs Hu. apply post_body_unnamed; [assumption| |].
  - rewrite body_after_extraction with (data := data) by assumption.
    rewrite captions_selected with (kind := kind) by assumption.
    now rewrite fetch_unfold, Hu.
  - eapply track_url_unnamed, Hu.
Qed.

(** X12. When the fetched caption document does not parse, whatever
    [curl]'s exit code, the request fails with [Error: ] and the text
    of the parser's exception, after the two subprocesses; the metadata
    already extracted is not returned. *)
Theorem unparsable_captions (raw : str) (data : json) (kind u : str)
        (p : CompletedProcess) (tr : list call) :
  List.length (extract_video_id raw) = 11%nat ->
  extracted (extract_video_id raw) data ->
  selected data kind ->
  track_url kind data = Ok (JStr u) ->
  run [py "curl"; py "-s"; u] 30 = Completed p ->
  ET_fromstring (stdout p) = None ->
  post {| video_id := raw |} tr
  = (Ok (failure_response raw
           (py "Error: " ++ describe (ParseError (stdout p)))),
     tr ++ [tool (extract_video_id raw); curl u]).
Proof.
  intros Hlen Hx Hs Hu Hr Hp. apply post_body_unnamed; [assumption| |exact I].
  rewrite body_after_extraction with (data := data) by assumption.
  rewrite captions_selected with (kind := kind) by assumption.
  rewrite fetch_unfold, Hu. cbn [argument]. rewrite Hr, Hp.
  now rewrite <- app_assoc.
Qed.

(** X13. When the extraction tool or [curl] cannot be run at all
    ([subprocess.run] raises something other than a timeout), the
    request fails with [Error: ] and the text of that exception. *)
Theorem subprocess_cannot_run (raw : str) (text : str) (tr : list call) :
  List.length (extract_video_id raw) = 11%nat ->
  (run (yt_dlp_command (extract_video_id raw)) 60 = Failed text \/
   exists data kind u,
     extracted (extract_video_id raw) data /\
     selected data kind /\
     track_url kind data = Ok (JStr u) /\
     run [py "curl"; py "-s"; u] 30 = Failed text) ->
  fst (post {| video_id := raw |} tr)
  = Ok (failure_response raw (py "Error: " ++ text)).
Proof.
  intros Hlen [Hr | (data & kind & u & Hx & Hs & Hu & Hr)].
  - erewrite post_failure; [reflexivity | assumption |].
    rewrite extraction_of_body, body_unfold, Hr. reflexivity.
  - erewrite post_failure; [reflexivity | assumption |].
    rewrite extraction_of_body.
    rewrite body_after_extraction with (data := data) by assumption.
    rewrite captions_selected with (kind := kind) by assumption.
    rewrite fetch_unfold, Hu. cbn [argument]. rewrite Hr. reflexivity.
Qed.

(** X20. When the test for a track raises (a null or a number where
    the tracks of a kind should be, say), the request ends in the
    failure response with [Error: ] and the text of that exception;
    only the extraction tool was run, and a failing test for the manual
    track keeps the automatic one from being looked at. *)
Theorem track_test_fails (raw : str) (data : json) (e : exn) (tr : list call) :
  List.length (extract_video_id raw) = 11%nat ->
  extracted (extract_video_id raw) data ->
  (has_track (py "subtitles") data = Err e \/
   (has_track (py "subtitles") data = Ok false /\
    has_track (py "automatic_captions") data = Err e)) ->
  post {| video_id := raw |} tr
  = (Ok (failure_response raw (py "Error: " ++ describe e)),
     tr ++ [tool (extract_video_id raw)]).
Proof.
  intros Hlen Hx He. apply post_body_unnamed; [assumption| |].
  - rewrite body_after_extraction with (data := data) by assumption.
    rewrite captions_unfold.
    destruct He as [He | [Hm He]]; [now rewrite He | now rewrite Hm, He].
  - destruct He as [He | [_ He]]; eapply has_track_unnamed, He.
Qed.

(** X21. The only address a request ever fetches is the one the
    tool's own output lists first for the English track the caption
    stage chose: when the trace of a request holds a [curl], its
    address is [data[kind]['en'][0]['url']] for the chosen kind. *)
Theorem fetched_address (raw : str) (data : json) (u : str) (tr : list call) :
  extracted (extract_video_id raw) data ->
  snd (post {| video_id := raw |} tr)
  = tr ++ [tool (extract_video_id raw); curl u] ->
  exists kind, selected data kind /\ track_url kind data = Ok (JStr u).
Proof.
  intros Hx.
  destruct (Nat.eq_dec (List.length (extract_video_id raw)) 11) as [Hlen | Hlen].
  2:{ destruct (post_invalid run json_loads ET_fromstring describe lax_str
                  lax_int raw tr Hlen) as [detail H].
      rewrite H. cbn [snd]. intros Ht.
      apply (f_equal (@List.length call)) in Ht.
      rewrite length_app in Ht. cbn in Ht. lia. }
  rewrite post_trace_valid by assumption.
  rewrite body_after_extraction with (data := data) by assumption.
  assert (Hf : forall kind,
             snd (fetch kind data (tr ++ [tool (extract_video_id raw)]))
             = tr ++ [tool (extract_video_id raw); curl u] ->
             track_url kind data = Ok (JStr u)).
  { intros kind. rewrite fetch_unfold.
    assert (Hno : tr ++ [tool (extract_video_id raw)]
                  <> tr ++ [tool (extract_video_id raw); curl u]).
    { intros Ht. apply app_inv_head in Ht. discriminate. }
    destruct (track_url kind data) as [v|e0]; [|now intros Ht].
    destruct v as [| | | |s| |]; cbn [argument]; try (now intros Ht).
    assert (Hu : forall x : result str,
               snd (x, (tr ++ [tool (extract_video_id raw)]) ++ [curl s])
               = tr ++ [tool (extract_video_id raw); curl u] -> s = u).
    { intros x Ht. cbn [snd] in Ht. rewrite <- app_assoc in Ht.
      apply app_inv_head in Ht. cbn in Ht. now injection Ht as ->. }
    destruct (run [py "curl"; py "-s"; s] 30) as [p| |text].
    - destruct (ET_fromstring (stdout p)); intros Ht; apply Hu in Ht;
        now subst.
    - intros Ht. apply Hu in Ht. now subst.
    - intros Ht. apply Hu in Ht. now subst. }
  assert (Hno : forall x : result str,
             snd (x, tr ++ [tool (extract_video_id raw)])
             <> tr ++ [tool (extract_video_id raw); curl u]).
  { intros x Ht. cbn [snd] in Ht. apply app_inv_head in Ht. discriminate. }
  destruct (captions data (tr ++ [tool (extract_video_id raw)]))
    as [[t|e0] tr0] eqn:Ec;
    (assert (Hs : snd (captions data (tr ++ [tool (extract_video_id raw)])) = tr0)
       by (now rewrite Ec));
    cbn [snd]; intros ->; clear Ec;
    rewrite captions_unfold in Hs;
    (destruct (has_track (py "subtitles") data) as [[|]|e1] eqn:Em;
     [ exists (py "subtitles"); split; [now constructor | now apply Hf]
     | destruct (has_track (py "automatic_captions") data) as [[|]|e2] eqn:Ea;
       [ exists (py "automatic_captions"); split; [now constructor | now apply Hf]
       | now destruct (Hno _ Hs)
       | now destruct (Hno _ Hs) ]
     | now destruct (Hno _ Hs) ]).
Qed.

(** *** The assembler on odd records *)

Lemma str_join_not_iterable (sep : str) (v : json) :
  not_iterable v -> str_join sep v = Err (TypeError OpJoin (type_of v)).
Proof. now destruct v. Qed.

Lemma assemble_tags (video_id : str) (m : list (str * json)) (t : str) :
  assemble video_id (JObj m) t =
  (tags <~ str_join (py ", ") (field_or m "tags" (JArr [])) ;;
   categories <~ str_join (py ", ") (field_or m "categories" (JArr [])) ;;
   Ok (VideoData.mk
         (field_or m "title" (JStr [])) video_id
         (field_or m "channel" (JStr []))
         (field_or m "channel_url" (JStr []))
         (field_or m "description" (JStr []))
         (field_or m "duration" (JInt 0))
         (field_or m "view_count" (JInt 0))
         (field_or m "like_count" (JInt 0))
         (field_or m "upload_date" (JStr []))
         tags categories
         (field_or m "thumbnail" (JStr []))
         t (Z.of_nat (List.length t)))).
Proof.
  unfold assemble. rewrite !dict_get_field. cbn [rbind]. reflexivity.
Qed.

(** X14. When [tags] or [categories] is present in the record but
    is null, a boolean or a number, the assembler raises and the
    request ends in a failure response whatever the rest of the record
    and of the pipeline: no such record gives a success. *)
Theorem tags_not_iterable (raw : str) (m : list (str * json)) (v : json)
        (tr : list call) :
  List.length (extract_video_id raw) = 11%nat ->
  extracted (extract_video_id raw) (JObj m) ->
  lookup (py "tags") m = Some v \/ lookup (py "categories") m = Some v ->
  not_iterable v ->
  (forall video_id t, exists e,
     assemble video_id (JObj m) t = Err e /\ unnamed e) /\
  exists message,
    fst (post {| video_id := raw |} tr) = Ok (failure_response raw message).
Proof.
  intros Hlen Hx Hv Hn.
  assert (Ha : forall video_id t, exists e,
               assemble video_id (JObj m) t = Err e /\ unnamed e).
  { intros video_id t.
    destruct (assemble video_id (JObj m) t) as [d|e] eqn:E.
    - exfalso. rewrite assemble_tags in E. unfold field_or in E.
      destruct Hv as [Hv | Hv].
      + rewrite Hv in E.
        rewrite (str_join_not_iterable _ _ Hn) in E. discriminate.
      + destruct (str_join (py ", ")
                    match lookup (py "tags") m with
                    | Some v0 => v0
                    | None => JArr []
                    end); [|discriminate].
        cbn [rbind] in E. rewrite Hv in E.
        rewrite (str_join_not_iterable _ _ Hn) in E. discriminate.
    - exists e. split; [reflexivity|]. eapply assemble_unnamed, E. }
  split; [exact Ha|].
  rewrite post_valid by assumption.
  destruct (extraction (extract_video_id raw) tr) as [[d|e] tr0] eqn:E.
  - exfalso. apply extraction_ok in E as (p & m' & t & Hr & _ & Hj & _ & Hd).
    destruct Hx as (p0 & Hr0 & _ & Hj0).
    rewrite Hr0 in Hr. injection Hr as <-. rewrite Hj0 in Hj.
    injection Hj as <-.
    destruct (Ha (extract_video_id raw) t) as (e & He & _). congruence.
  - eexists. reflexivity.
Qed.

Lemma assemble_fields (video_id : str) (m : list (str * json)) (t : str)
      (d : VideoData.t) :
  assemble video_id (JObj m) t = Ok d ->
  VideoData.videoTitle d = field_or m "title" (JStr []) /\
  VideoData.channelName d = field_or m "channel" (JStr []) /\
  VideoData.channelUrl d = field_or m "channel_url" (JStr []) /\
  VideoData.description d = field_or m "description" (JStr []) /\
  VideoData.duration d = field_or m "duration" (JInt 0) /\
  VideoData.viewCount d = field_or m "view_count" (JInt 0) /\
  VideoData.likeCount d = field_or m "like_count" (JInt 0) /\
  VideoData.uploadDate d = field_or m "upload_date" (JStr []) /\
  VideoData.thumbnailUrl d = field_or m "thumbnail" (JStr []).
Proof.
  rewrite assemble_tags.
  destruct (str_join (py ", ") (field_or m "tags" (JArr []))); [|discriminate].
  destruct (str_join (py ", ") (field_or m "categories" (JArr [])));
    [|discriminate].
  cbn [rbind]. intros [= <-]. cbn. repeat split.
Qed.

Lemma response_fields (video_id : str) (d : VideoData.t)
      (r : TranscriptResponse.t) :
  response video_id d = Ok r ->
  as_str lax_str (VideoData.videoTitle d) = Some (TranscriptResponse.videoTitle r) /\
  as_str lax_str (VideoData.channelName d) = Some (TranscriptResponse.channelName r) /\
  as_str lax_str (VideoData.channelUrl d) = Some (TranscriptResponse.channelUrl r) /\
  as_str lax_str (VideoData.description d) = Some (TranscriptResponse.description r) /\
  as_int lax_int (VideoData.duration d) = Some (TranscriptResponse.duration r) /\
  as_int lax_int (VideoData.viewCount d) = Some (TranscriptResponse.viewCount r) /\
  as_int lax_int (VideoData.likeCount d) = Some (TranscriptResponse.likeCount r) /\
  as_str lax_str (VideoData.uploadDate d) = Some (TranscriptResponse.uploadDate r) /\
  as_str lax_str (VideoData.thumbnailUrl d) = Some (TranscriptResponse.thumbnailUrl r).
Proof.
  unfold success_response, obind.
  repeat (match goal with
          | |- context [match ?x with Some _ => _ | None => _ end] =>
              lazymatch x with
              | as_str _ _ => destruct x
              | as_int _ _ => destruct x
              end
          end; try discriminate).
  intros [= <-]. cbn. repeat split.
Qed.

(** X15. In a success response a metadata field tells an absent key
    from a null value: the default (the empty string, or 0) stands for
    a key the record lacks, while a key whose value is null gives a
    null field. A string or an integer in the record is passed on
    unchanged. *)
Theorem absent_or_null (raw : str) (m : list (str * json)) (tr tr' : list call)
        (r : TranscriptResponse.t) :
  extracted (extract_video_id raw) (JObj m) ->
  post {| video_id := raw |} tr = (Ok r, tr') ->
  TranscriptResponse.success r = true ->
  (lookup (py "title") m = None -> TranscriptResponse.videoTitle r = Some []) /\
  (lookup (py "title") m = Some JNull -> TranscriptResponse.videoTitle r = None) /\
  (forall s, lookup (py "title") m = Some (JStr s) ->
             TranscriptResponse.videoTitle r = Some s) /\
  (lookup (py "like_count") m = None ->
   TranscriptResponse.likeCount r = Some 0%Z) /\
  (lookup (py "like_count") m = Some JNull ->
   TranscriptResponse.likeCount r = None) /\
  (forall n, lookup (py "like_count") m = Some (JInt n) ->
             TranscriptResponse.likeCount r = Some n).
Proof.
  intros Hx Hp Hs.
  destruct (Nat.eq_dec (List.length (extract_video_id raw)) 11) as [Hlen | Hlen].
  2:{ destruct (post_invalid run json_loads ET_fromstring describe lax_str
                  lax_int raw tr Hlen) as [detail H].
      rewrite H in Hp. discriminate. }
  rewrite post_valid in Hp by assumption.
  destruct (extraction (extract_video_id raw) tr) as [[d|e] tr0] eqn:E.
  2:{ injection Hp as <- _. discriminate. }
  destruct (response (extract_video_id raw) d) as [r0|e] eqn:Er.
  2:{ injection Hp as <- _. discriminate. }
  injection Hp as <- _.
  apply extraction_ok in E as (p & m' & t & Hr & _ & Hj & _ & Hd).
  destruct Hx as (p0 & Hr0 & _ & Hj0).
  rewrite Hr0 in Hr. injection Hr as <-. rewrite Hj0 in Hj. injection Hj as <-.
  apply assemble_fields in Hd as (Ht & _ & _ & _ & _ & _ & Hl & _).
  apply response_fields in Er as (Ft & _ & _ & _ & _ & _ & Fl & _).
  rewrite Ht in Ft. rewrite Hl in Fl. unfold field_or in Ft, Fl.
  repeat split.
  - intros H. rewrite H in Ft. injection Ft as Ft. symmetry. exact Ft.
  - intros H. rewrite H in Ft. injection Ft as Ft. symmetry. exact Ft.
  - intros s H. rewrite H in Ft. injection Ft as Ft. symmetry. exact Ft.
  - intros H. rewrite H in Fl. injection Fl as Fl. symmetry. exact Fl.
  - intros H. rewrite H in Fl. injection Fl as Fl. symmetry. exact Fl.
  - intros n H. rewrite H in Fl. injection Fl as Fl. symmetry. exact Fl.
Qed.

(** *** From the document to the response *)

Lemma response_error (video_id : str) (d : VideoData.t) (e : exn) :
  response video_id d = Err e ->
  e = ValidationError (refused_fields lax_str lax_int d).
Proof.
  unfold success_response.
  destruct (_ <~~ as_str lax_str (VideoData.videoTitle d) ;; _);
    [discriminate | now intros [= <-]].
Qed.

Lemma response_refuses (video_id : str) (d : VideoData.t) :
  refused_fields lax_str lax_int d <> [] ->
  response video_id d = Err (ValidationError (refused_fields lax_str lax_int d)).
Proof.
  unfold success_response, refused_fields, refused, obind.
  repeat (match goal with
          | |- context [match ?x with Some _ => _ | None => _ end] =>
              lazymatch x with
              | as_str _ _ => destruct x
              | as_int _ _ => destruct x
              end
          end; try reflexivity).
  cbn [app]. congruence.
Qed.

Lemma assemble_record (video_id : str) (m : list (str * json)) (t : str)
      (tags categories : list str) :
  string_list m "tags" tags ->
  string_list m "categories" categories ->
  assemble video_id (JObj m) t = Ok (assembled video_id m t tags categories).
Proof.
  intros Ht Hc. rewrite assemble_tags.
  rewrite join_field with (l := tags) by assumption. cbn [rbind].
  rewrite join_field with (l := categories) by assumption. reflexivity.
Qed.

(** X16. The stages compose: for a valid identifier, a document
    that is a JSON object whose tags and categories are absent or lists
    of strings, and a caption stage that ended with a transcript, the
    handler returns the response built from the assembled record
    (title, channel, ... from the document or their defaults, tags and
    categories joined, the transcript and its length), or, when a field
    is refused there, the failure response with the text of that
    refusal. The subprocesses are those of the caption stage. *)
Theorem pipeline_composes (raw : str) (m : list (str * json)) (t : str)
        (tags categories : list str) (tr tr' : list call) :
  List.length (extract_video_id raw) = 11%nat ->
  extracted (extract_video_id raw) (JObj m) ->
  captions (JObj m) (tr ++ [tool (extract_video_id raw)]) = (Ok t, tr') ->
  string_list m "tags" tags ->
  string_list m "categories" categories ->
  post {| video_id := raw |} tr =
  (match response (extract_video_id raw)
           (assembled (extract_video_id raw) m t tags categories) with
   | Ok r => Ok r
   | Err e => Ok (failure_response raw (describe e))
   end, tr').
Proof.
  intros Hlen Hx Hc Ht Hg. rewrite post_valid by assumption.
  rewrite extraction_of_body.
  rewrite body_after_extraction with (data := JObj m) by assumption.
  rewrite Hc.
  rewrite assemble_record with (tags := tags) (categories := categories)
    by assumption.
  destruct (response (extract_video_id raw)
              (assembled (extract_video_id raw) m t tags categories))
    as [r|e] eqn:E; [reflexivity|].
  apply response_error in E. now subst e.
Qed.

(** X17. A field that pydantic refuses (a title that is a number
    and is not converted, say) turns an otherwise complete result into
    a failure response: its error is the text of the validation error,
    without the [Error: ] prefix of the errors of [get_yt_dlp_data],
    and it is sent with status 200. *)
Theorem refused_field_fails (raw : str) (m : list (str * json)) (t : str)
        (tags categories : list str) (tr tr' : list call) :
  List.length (extract_video_id raw) = 11%nat ->
  extracted (extract_video_id raw) (JObj m) ->
  captions (JObj m) (tr ++ [tool (extract_video_id raw)]) = (Ok t, tr') ->
  string_list m "tags" tags ->
  string_list m "categories" categories ->
  refused_fields lax_str lax_int
    (assembled (extract_video_id raw) m t tags categories) <> [] ->
  let failure :=
    failure_response raw
      (describe (ValidationError
                   (refused_fields lax_str lax_int
                      (assembled (extract_video_id raw) m t tags categories)))) in
  post {| video_id := raw |} tr = (Ok failure, tr') /\
  respond (fst (post {| video_id := raw |} tr)) = Json 200 failure.
Proof.
  intros Hlen Hx Hc Ht Hg Hr failure.
  assert (H : post {| video_id := raw |} tr = (Ok failure, tr')).
  { rewrite post_valid by assumption. rewrite extraction_of_body.
    rewrite body_after_extraction with (data := JObj m) by assumption.
    rewrite Hc.
    rewrite assemble_record with (tags := tags) (categories := categories)
      by assumption.
    now rewrite response_refuses by assumption. }
  now rewrite H.
Qed.

(** X18. No exception other than the [HTTPException] of the length
    check leaves a handler: when the normalized identifier has eleven
    characters either handler returns a response object, whatever the
    pipeline and the building of the response raise, and when it has
    not, either handler raises that [HTTPException], with status 400. *)
Theorem handlers_raise_only_400 (raw : str) (tr : list call) :
  (List.length (extract_video_id raw) = 11%nat /\
   exists body,
     fst (post {| video_id := raw |} tr) = Ok body /\
     fst (get raw tr) = Ok body) \/
  (List.length (extract_video_id raw) <> 11%nat /\
   exists detail,
     fst (post {| video_id := raw |} tr) = Err (HTTPException 400 detail) /\
     fst (get raw tr) = Err (HTTPException 400 detail)).
Proof.
  unfold get_transcript_get.
  destruct (Nat.eq_dec (List.length (extract_video_id raw)) 11) as [Hlen | Hlen].
  - left. split; [assumption|]. rewrite post_valid by assumption.
    destruct (extraction (extract_video_id raw) tr) as [[d|e] tr0].
    + destruct (response (extract_video_id raw) d); eexists; split; reflexivity.
    + eexists; split; reflexivity.
  - right. split; [assumption|].
    destruct (post_invalid run json_loads ET_fromstring describe lax_str lax_int
                raw tr Hlen) as [detail H].
    exists detail. now rewrite H.
Qed.

End PipelineMore.

(** ** The length of a joined string *)

Module JoinMore.
Import Words.



End JoinMore.

(** * The further properties at concrete requests *)

Module MoreInstances.
Import World Cases Words Shape.

Lemma identifier_check (g : str) :
  List.length g = 11%nat -> forallb (Re.in_set Re.id_set) g = true ->
  identifier g.
Proof.
  intros Hl Hf. split; [assumption|]. apply Forall_forall. intros c Hc.
  apply PatternFacts.in_id_set. rewrite forallb_forall in Hf. now apply Hf.
Qed.

Lemma plain_check (s : str) :
  forallb (fun c => negb (N.eqb c 63) && negb (N.eqb c 38)) s = true ->
  Forall plain s.
Proof.
  intros Hf. apply Forall_forall. intros c Hc.
  rewrite forallb_forall in Hf. specialize (Hf c Hc).
  apply andb_true_iff in Hf as [H1 H2].
  apply negb_true_iff, N.eqb_neq in H1, H2. now split.
Qed.

Lemma query_round_trip_witness :
  identifier id /\
  extract_video_id (py "https://www.youtube.com/watch?v=dQw4w9WgXcQ&t=42") = id /\
  extract_video_id (last (yt_dlp_command id) []) = id.
Proof.
  assert (Hid : identifier id) by (apply identifier_check; reflexivity).
  assert (Hp : Forall plain (py "https://www.youtube.com/watch"))
    by (apply plain_check; reflexivity).
  split; [exact Hid|]. split.
  - exact (proj1 (NormalizerMore.query_round_trip Hid)
             (py "https://www.youtube.com/watch") (py "?v=") (py "&t=42")
             Hp (or_introl eq_refl)).
  - exact (proj2 (proj2 (NormalizerMore.query_round_trip Hid))).
Defined.

Lemma short_link_round_trip_witness :
  identifier id /\
  absent query_lead (py "?t=30") /\
  extract_video_id (py "https://youtu.be/dQw4w9WgXcQ?t=30") = id.
Proof.
  assert (Hid : identifier id) by (apply identifier_check; reflexivity).
  assert (Hp : Forall plain (py "https://")) by (apply plain_check; reflexivity).
  assert (Hy : ~ In 121%N (py "https://")).
  { intros H. cbn in H. repeat (destruct H as [H | H]; [discriminate|]).
    exact H. }
  assert (Ha : absent query_lead (py "?t=30"))
    by (apply Normalizer.search_query_none; reflexivity).
  split; [exact Hid|]. split; [exact Ha|].
  exact (@NormalizerMore.short_link_round_trip id (py "https://") (py "?t=30")
           Hid Hp Hy Ha).
Defined.

Lemma extract_video_id_short_input_witness :
  (List.length (py "hello world") <= 11)%nat /\
  extract_video_id (py "hello world") = py "hello world".
Proof.
  assert (H : (List.length (py "hello world") <= 11)%nat) by (cbn; lia).
  split; [exact H|].
  exact (@NormalizerMore.extract_video_id_short_input (py "hello world") H).
Defined.

Lemma extraction_error_cause_witness :
  get_yt_dlp_data tool_times_out reads parses Stub.describe id []
  = (Err (Exception (py "Request timeout")), [tool id]) /\
  (tool_times_out (yt_dlp_command id) 60 = TimedOut \/
   exists u, tool_times_out [py "curl"; py "-s"; u] 30 = TimedOut).
Proof.
  assert (H : get_yt_dlp_data tool_times_out reads parses Stub.describe id []
              = (Err (Exception (py "Request timeout")), [tool id]))
    by reflexivity.
  split; [exact H|].
  destruct (@extraction_error_cause tool_times_out reads parses Stub.describe
              id [] _ _ H) as [[_ Hc] | [[Hj _] | [text Ht]]].
  - exact Hc.
  - discriminate Hj.
  - discriminate Ht.
Defined.

Lemma response_invariant_witness :
  exists r tr',
    handle Stub.record watch_url [] = (Ok r, tr') /\
    TranscriptResponse.success r = true /\
    TranscriptResponse.error r = None /\
    exists t,
      TranscriptResponse.transcript r = Some t /\
      TranscriptResponse.length r = Some (Z.of_nat (List.length t)).
Proof.
  eexists. eexists. split; [reflexivity|].
  destruct (@response_invariant fine (reads_of Stub.record) parses Stub.describe
              Stub.lax_str Stub.lax_int watch_url [] _ _ eq_refl)
    as [[message Hf] | (Hs & He & _ & _ & _ & Ht)].
  - discriminate Hf.
  - split; [exact Hs|]. split; [exact He | exact Ht].
Defined.

Lemma success_needs_object_witness :
  exists r tr',
    handle Stub.record watch_url [] = (Ok r, tr') /\
    TranscriptResponse.success r = true /\
    exists m, extracted fine (reads_of Stub.record) (extract_video_id watch_url)
                (JObj m).
Proof.
  eexists. eexists. split; [reflexivity|]. split; [reflexivity|].
  exact (proj2 (@success_needs_object fine (reads_of Stub.record) parses
                  Stub.describe Stub.lax_str Stub.lax_int watch_url [] _ _
                  eq_refl eq_refl)).
Defined.

Lemma unreadable_track_witness :
  selected empty_track_record (py "subtitles") /\
  has_track (py "automatic_captions") empty_track_record = Ok true /\
  track_url (py "subtitles") empty_track_record = Err (IndexError List) /\
  handle empty_track_record id []
  = (Ok (failure_response id (py "Error: error")), [tool id]).
Proof.
  assert (Hlen : List.length (extract_video_id id) = 11%nat) by reflexivity.
  assert (Hx : extracted fine (reads_of empty_track_record)
                 (extract_video_id id) empty_track_record).
  { eexists. split; [reflexivity|]. split; reflexivity. }
  assert (Hs : selected empty_track_record (py "subtitles"))
    by (constructor; reflexivity).
  assert (Hu : track_url (py "subtitles") empty_track_record
               = Err (IndexError List)) by reflexivity.
  split; [exact Hs|]. split; [reflexivity|]. split; [exact Hu|].
  exact (@unreadable_track fine (reads_of empty_track_record) parses
           Stub.describe Stub.lax_str Stub.lax_int id empty_track_record
           (py "subtitles") (IndexError List) [] Hlen Hx Hs Hu).
Defined.

Lemma unparsable_captions_witness :
  no_parse (py "<transcript/>") = None /\
  get_transcript fine reads no_parse Stub.describe Stub.lax_str Stub.lax_int
    {| video_id := id |} []
  = (Ok (failure_response id (py "Error: error")), [tool id; curl manual_url]).
Proof.
  assert (Hlen : List.length (extract_video_id id) = 11%nat) by reflexivity.
  assert (Hx : extracted fine reads (extract_video_id id) Stub.record).
  { eexists. split; [reflexivity|]. split; reflexivity. }
  assert (Hs : selected Stub.record (py "subtitles"))
    by (constructor; reflexivity).
  assert (Hu : track_url (py "subtitles") Stub.record = Ok (JStr manual_url))
    by reflexivity.
  split; [reflexivity|].
  exact (@unparsable_captions fine reads no_parse Stub.describe Stub.lax_str
           Stub.lax_int id Stub.record (py "subtitles") manual_url
           {| returncode := 0; stdout := py "<transcript/>"; stderr := [] |}
           [] Hlen Hx Hs Hu eq_refl eq_refl).
Defined.

Lemma subprocess_cannot_run_witness :
  cannot_start (yt_dlp_command (extract_video_id id)) 60
  = Failed (py "[Errno 2] No such file or directory: 'yt-dlp'") /\
  fst (get_transcript cannot_start reads parses Stub.describe Stub.lax_str
         Stub.lax_int {| video_id := id |} [])
  = Ok (failure_response id
          (py "Error: [Errno 2] No such file or directory: 'yt-dlp'")).
Proof.
  assert (Hlen : List.length (extract_video_id id) = 11%nat) by reflexivity.
  assert (Hr : cannot_start (yt_dlp_command (extract_video_id id)) 60
               = Failed (py "[Errno 2] No such file or directory: 'yt-dlp'"))
    by reflexivity.
  split; [exact Hr|].
  exact (@subprocess_cannot_run cannot_start reads parses Stub.describe
           Stub.lax_str Stub.lax_int id _ [] Hlen (or_introl Hr)).
Defined.

Lemma tags_not_iterable_witness :
  lookup (py "tags") null_tags = Some JNull /\
  not_iterable JNull /\
  exists message,
    fst (handle (JObj null_tags) id []) = Ok (failure_response id message).
Proof.
  assert (Hlen : List.length (extract_video_id id) = 11%nat) by reflexivity.
  assert (Hx : extracted fine (reads_of (JObj null_tags))
                 (extract_video_id id) (JObj null_tags)).
  { eexists. split; [reflexivity|]. split; reflexivity. }
  assert (Hv : lookup (py "tags") null_tags = Some JNull) by reflexivity.
  split; [exact Hv|]. split; [exact I|].
  exact (proj2 (@tags_not_iterable fine (reads_of (JObj null_tags)) parses
                  Stub.describe Stub.lax_str Stub.lax_int id null_tags JNull []
                  Hlen Hx (or_introl Hv) I)).
Defined.

Lemma absent_or_null_witness :
  lookup (py "title") sparse = None /\
  lookup (py "like_count") sparse = Some JNull /\
  exists r tr',
    handle (JObj sparse) id [] = (Ok r, tr') /\
    TranscriptResponse.videoTitle r = Some [] /\
    TranscriptResponse.likeCount r = None.
Proof.
  assert (Hx : extracted fine (reads_of (JObj sparse))
                 (extract_video_id id) (JObj sparse)).
  { eexists. split; [reflexivity|]. split; reflexivity. }
  assert (Ht : lookup (py "title") sparse = None) by reflexivity.
  assert (Hl : lookup (py "like_count") sparse = Some JNull) by reflexivity.
  split; [exact Ht|]. split; [exact Hl|].
  eexists. eexists. split; [reflexivity|].
  destruct (@absent_or_null fine (reads_of (JObj sparse)) parses Stub.describe
              Stub.lax_str Stub.lax_int id sparse [] _ _ Hx eq_refl eq_refl)
    as (H1 & _ & _ & _ & H2 & _).
  split; [exact (H1 Ht) | exact (H2 Hl)].
Defined.

Lemma pipeline_composes_witness :
  caption_stage fine parses Stub.record [tool id]
  = (Ok (py "Hello world"), [tool id; curl manual_url]) /\
  string_list Stub.members "tags" [py "music"; py "live"] /\
  string_list Stub.members "categories" [] /\
  handle Stub.record id []
  = (success_response Stub.lax_str Stub.lax_int id
       (assembled id Stub.members (py "Hello world") [py "music"; py "live"] []),
     [tool id; curl manual_url]).
Proof.
  assert (Hlen : List.length (extract_video_id id) = 11%nat) by reflexivity.
  assert (Hx : extracted fine (reads_of Stub.record) (extract_video_id id)
                 (JObj Stub.members)).
  { eexists. split; [reflexivity|]. split; reflexivity. }
  assert (Hc : caption_stage fine parses (JObj Stub.members)
                 ([] ++ [tool (extract_video_id id)])
               = (Ok (py "Hello world"), [tool id; curl manual_url]))
    by reflexivity.
  assert (Ht : string_list Stub.members "tags" [py "music"; py "live"])
    by reflexivity.
  assert (Hg : string_list Stub.members "categories" []) by reflexivity.
  split; [exact Hc|]. split; [exact Ht|]. split; [exact Hg|].
  exact (@pipeline_composes fine (reads_of Stub.record) parses Stub.describe
           Stub.lax_str Stub.lax_int id Stub.members (py "Hello world")
           [py "music"; py "live"] [] [] _ Hlen Hx Hc Ht Hg).
Defined.

Lemma refused_field_fails_witness :
  refused_fields Stub.lax_str Stub.lax_int
    (assembled id numeric_title [] [] []) = [py "videoTitle"] /\
  handle (JObj numeric_title) id []
  = (Ok (failure_response id (py "error")), [tool id]).
Proof.
  assert (Hlen : List.length (extract_video_id id) = 11%nat) by reflexivity.
  assert (Hx : extracted fine (reads_of (JObj numeric_title))
                 (extract_video_id id) (JObj numeric_title)).
  { eexists. split; [reflexivity|]. split; reflexivity. }
  assert (Hc : caption_stage fine parses (JObj numeric_title)
                 ([] ++ [tool (extract_video_id id)])
               = (Ok [], [tool id])) by reflexivity.
  assert (Hr : refused_fields Stub.lax_str Stub.lax_int
                 (assembled (extract_video_id id) numeric_title [] [] []) <> [])
    by discriminate.
  split; [reflexivity|].
  exact (proj1 (@refused_field_fails fine (reads_of (JObj numeric_title)) parses
                  Stub.describe Stub.lax_str Stub.lax_int id numeric_title []
                  [] [] [] _ Hlen Hx Hc eq_refl eq_refl Hr)).
Defined.

Lemma track_test_fails_witness :
  has_track (py "subtitles") null_subtitles = Err (TypeError OpIn NoneType) /\
  has_track (py "automatic_captions") null_subtitles = Ok true /\
  handle null_subtitles id []
  = (Ok (failure_response id (py "Error: error")), [tool id]).
Proof.
  assert (Hlen : List.length (extract_video_id id) = 11%nat) by reflexivity.
  assert (Hx : extracted fine (reads_of null_subtitles) (extract_video_id id)
                 null_subtitles).
  { eexists. split; [reflexivity|]. split; reflexivity. }
  assert (He : has_track (py "subtitles") null_subtitles
               = Err (TypeError OpIn NoneType)) by reflexivity.
  split; [exact He|]. split; [reflexivity|].
  exact (@track_test_fails fine (reads_of null_subtitles) parses Stub.describe
           Stub.lax_str Stub.lax_int id null_subtitles _ [] Hlen Hx
           (or_introl He)).
Defined.

Lemma fetched_address_witness :
  snd (handle Stub.record id []) = [tool id; curl manual_url] /\
  exists kind,
    selected Stub.record kind /\
    track_url kind Stub.record = Ok (JStr manual_url).
Proof.
  assert (Hx : extracted fine (reads_of Stub.record) (extract_video_id id)
                 Stub.record).
  { eexists. split; [reflexivity|]. split; reflexivity. }
  assert (Ht : snd (handle Stub.record id [])
               = [] ++ [tool (extract_video_id id); curl manual_url])
    by reflexivity.
  split; [exact Ht|].
  exact (@fetched_address fine (reads_of Stub.record) parses Stub.describe
           Stub.lax_str Stub.lax_int id Stub.record manual_url [] Hx Ht).
Defined.


End MoreInstances.
